(** * TelegramActionHub: the bot transport, poll loop, dispatcher and
      connection state machine of [src/api/telegramAPI.js].

    The class [TelegramAPI] is a singleton with mutable fields and async
    methods.  It is embedded here as a state-and-exception monad [M] over
    the record [St] of its fields.  Every [await] of a network call is an
    atomic step that consumes the server's next answer from the oracle
    [net]; observable effects (requests, waits, listener calls, handler
    invocations, log lines, scheduled reconnects) are appended to [trace].
    The overlapping of interval ticks is modelled separately, by a small
    interleaving semantics ([Sys], [sys_tick], [sys_resolve]). *)

From Stdlib Require Import ZArith Ascii String List Bool Sorted.
From stdpp Require Import base gmap strings list.
Import ListNotations.
Local Open Scope string_scope.
Local Open Scope list_scope.
Local Open Scope Z_scope.

(* ------------------------------------------------------------------ *)
(** ** Data received from the Bot API *)

(** [chat.id.toString()] of a message; [text] is [undefined] or a string. *)
Record Message := mkMessage {
  msg_chat : string;
  msg_text : option string
}.

(** [callback_query]: its [id], its [data] and the [message] it hangs on
    ([undefined] for inline messages). *)
Record CallbackQuery := mkCallbackQuery {
  cb_id : string;
  cb_data : string;
  cb_message : option Message
}.

Record Update := mkUpdate {
  update_id : Z;
  message : option Message;
  callback_query : option CallbackQuery
}.

(** [response.data.result] of a successful request. *)
Inductive Payload :=
  | PUpdates (l : list Update)        (* getUpdates: an array of updates *)
  | PBot (has_id : bool)              (* getMe: a bot object, [id] truthy? *)
  | PNone.                            (* anything else (sendMessage, ...) *)

(** What the server does with one HTTP attempt: answers, or fails with
    [error.response.status] ([None]: a network error, no response). *)
Inductive Outcome :=
  | Resp (p : Payload)
  | Fail (status : option Z).

(** Second argument of a command handler. *)
Inductive Arg :=
  | ACb (cb : CallbackQuery)                      (* handler(callback_query) *)
  | ACbParam (cb : CallbackQuery) (p : string)    (* handler(callback_query, param) *)
  | AMsg (m : Message) (params : list string)     (* handler(message, params) *)
  | AMsgDefault (m : Message).                    (* commandHandlers['message'](message) *)

(** A registered handler: [None] when it resolves, [Some e] when it throws
    an error with message [e]. *)
Definition Handler := Arg -> option string.

(** Request bodies / params the code sends. *)
Inductive Body :=
  | BOffset (offset : Z)       (* getUpdates: { offset, timeout: 1, ... } *)
  | BCallback (id : string)    (* answerCallbackQuery: { callback_query_id } *)
  | BText (text : string)      (* sendMessage: { chat_id, text, ... } *)
  | BNone.                     (* getMe *)

Inductive Level := LInfo | LWarning | LError | LSuccess | LDebug.

Inductive Event :=
  | ERequest (endpoint : string) (body : Body)   (* one HTTP attempt *)
  | EWait (ms : Z)                               (* retry back-off sleep *)
  | ENotify (listener : nat) (status : bool)     (* listener(status) *)
  | EInvoke (key : string) (a : Arg)             (* commandHandlers[key](...) *)
  | ELog (lvl : Level) (text : string)
  | ESchedule (ms : Z).                          (* setTimeout(reconnect, ms) *)

(* ------------------------------------------------------------------ *)
(** ** The fields of a [TelegramAPI] instance *)

Record St := mkSt {
  token : option string;
  chatId : option string;
  lastUpdateId : Z;
  connected : bool;
  connectionListeners : list nat;        (* listener identities, in order *)
  commandHandlers : gmap string Handler;
  reconnectTimer : option Z;             (* a pending reconnect, its delay *)
  reconnectAttempts : Z;
  isPolling : bool;                      (* setInterval armed *)
  net : list Outcome;                    (* the server's next answers *)
  trace : list Event
}.

Definition maxReconnectAttempts : Z := 10.

(** The constructor: [lastUpdateId = 0], disconnected, no timer. *)
Definition initial (ls : list nat) (hs : gmap string Handler)
    (answers : list Outcome) : St :=
  mkSt None None 0 false ls hs None 0 false answers [].

Definition set_lastUpdateId n s := mkSt (token s) (chatId s) n (connected s)
  (connectionListeners s) (commandHandlers s) (reconnectTimer s)
  (reconnectAttempts s) (isPolling s) (net s) (trace s).
Definition set_connected_field b s := mkSt (token s) (chatId s)
  (lastUpdateId s) b (connectionListeners s) (commandHandlers s)
  (reconnectTimer s) (reconnectAttempts s) (isPolling s) (net s) (trace s).
Definition set_handlers h s := mkSt (token s) (chatId s) (lastUpdateId s)
  (connected s) (connectionListeners s) h (reconnectTimer s)
  (reconnectAttempts s) (isPolling s) (net s) (trace s).
Definition set_timer t s := mkSt (token s) (chatId s) (lastUpdateId s)
  (connected s) (connectionListeners s) (commandHandlers s) t
  (reconnectAttempts s) (isPolling s) (net s) (trace s).
Definition set_attempts a s := mkSt (token s) (chatId s) (lastUpdateId s)
  (connected s) (connectionListeners s) (commandHandlers s)
  (reconnectTimer s) a (isPolling s) (net s) (trace s).
Definition set_polling b s := mkSt (token s) (chatId s) (lastUpdateId s)
  (connected s) (connectionListeners s) (commandHandlers s)
  (reconnectTimer s) (reconnectAttempts s) b (net s) (trace s).
Definition set_net n s := mkSt (token s) (chatId s) (lastUpdateId s)
  (connected s) (connectionListeners s) (commandHandlers s)
  (reconnectTimer s) (reconnectAttempts s) (isPolling s) n (trace s).
Definition add_event e s := mkSt (token s) (chatId s) (lastUpdateId s)
  (connected s) (connectionListeners s) (commandHandlers s)
  (reconnectTimer s) (reconnectAttempts s) (isPolling s) (net s)
  (trace s ++ [e]).

Fixpoint add_events (l : list Event) (s : St) : St :=
  match l with
  | [] => s
  | e :: r => add_events r (add_event e s)
  end.

(* ------------------------------------------------------------------ *)
(** ** State, trace and exceptions: the async methods' monad *)

Inductive Res (A : Type) := Ok (a : A) | Exn (e : string).
Arguments Ok {A} a.
Arguments Exn {A} e.

Definition M (A : Type) : Type := St -> St * Res A.

#[global] Instance M_ret : MRet M := fun A a s => (s, Ok a).
#[global] Instance M_bind : MBind M := fun A B f m s =>
  match m s with
  | (s', Ok a) => f a s'
  | (s', Exn e) => (s', Exn e)
  end.

Definition getS : M St := fun s => (s, Ok s).
Definition modify (f : St -> St) : M unit := fun s => (f s, Ok tt).
Definition emit (e : Event) : M unit := modify (add_event e).
Definition log (l : Level) (t : string) : M unit := emit (ELog l t).
Definition throw {A} (e : string) : M A := fun s => (s, Exn e).
(** [try { m } catch (e) { h(e) }] *)
Definition catch {A} (m : M A) (h : string -> M A) : M A := fun s =>
  match m s with
  | (s', Exn e) => h e s'
  | r => r
  end.

Fixpoint for_each {A} (f : A -> M unit) (l : list A) : M unit :=
  match l with
  | [] => mret tt
  | x :: r => f x ;; for_each f r
  end.

(* ------------------------------------------------------------------ *)
(** ** The axios instance and its retry interceptor ([createTelegramAPI]) *)

(** One HTTP attempt: the request goes out, the server's next answer is
    read from [net] (no answer left: a network error). *)
Definition issue (ep : string) (b : Body) : M Outcome := fun s =>
  let s1 := add_event (ERequest ep b) s in
  match net s1 with
  | o :: rest => (set_net rest s1, Ok o)
  | [] => (s1, Ok (Fail None))
  end.

(** [!status || status >= 500 || status === 429] *)
Definition retriable (status : option Z) : bool :=
  match status with
  | None => true
  | Some c => (500 <=? c) || (c =? 429)
  end.

(** The decimal digits of [0 <= n < 10 ^ fuel], in front of [acc]. *)
Fixpoint dec_digits (fuel : nat) (n : Z) (acc : string) : string :=
  match fuel with
  | O => acc
  | S f =>
      let acc' := String (Ascii.ascii_of_nat (48 + Z.to_nat (n mod 10))) acc in
      if n / 10 =? 0 then acc' else dec_digits f (n / 10) acc'
  end.

(** [`${n}`] for an HTTP status (three digits; any [|n| < 10^20]). *)
Definition z_to_string (n : Z) : string :=
  if n <? 0 then String "-" (dec_digits 20 (- n) "") else dec_digits 20 n "".

(** axios's [error.message]: ["Network Error"] when no response came
    back, ["Request failed with status code <status>"] otherwise.  [Fail
    None] is read as a network error: a request that runs into the
    [timeout: 15000] also has no status, and is retried the same way, but
    its message (["timeout of 15000ms exceeded"]) is not modelled. *)
Definition error_message (status : option Z) : string :=
  match status with
  | None => "Network Error"
  | Some c => "Request failed with status code " +:+ z_to_string c
  end.

(** [config.retry = 3], set by the request interceptor on every attempt. *)
Definition retry : nat := 3.

(** The response interceptor.  [count] is [config._retryCount]; [remaining]
    is [config.retry - config._retryCount], so [config._retryCount <
    config.retry] is [remaining > 0].  A retriable failure with retries
    left increments the count, sleeps [2^count * 1000] ms and re-sends
    [api(config)]; any other failure is rejected to the caller. *)
Fixpoint attempt (remaining count : nat) (ep : string) (b : Body) : M Payload :=
  o ← issue ep b;
  match o with
  | Resp p => mret p
  | Fail st =>
      if retriable st then
        match remaining with
        | S r =>
            let c := S count in
            log LWarning "Retrying Telegram API request" ;;
            emit (EWait (2 ^ Z.of_nat c * 1000)) ;;
            attempt r c ep b
        | O =>
            log LError "Telegram API error after retries" ;;
            throw (error_message st)
        end
      else
        log LError "Telegram API error after retries" ;;
        throw (error_message st)
  end.

(** [this.api.get(ep, ...)] / [this.api.post(ep, ...)]. *)
Definition transport (ep : string) (b : Body) : M Payload :=
  attempt retry O ep b.

(* ------------------------------------------------------------------ *)
(** ** Connection state machine *)

(** [setConnected(status)]: store, and notify the listeners (in order)
    only when the value changed. *)
Definition setConnected (status : bool) : M unit :=
  s ← getS;
  let wasConnected := connected s in
  modify (set_connected_field status) ;;
  if negb (Bool.eqb wasConnected status) then
    log LInfo (if status then "Telegram connection status: Connected"
               else "Telegram connection status: Disconnected") ;;
    for_each (fun l => emit (ENotify l status)) (connectionListeners s)
  else mret tt.

(** [startUpdatePolling()]: arm the 3000 ms interval once. *)
Definition startUpdatePolling : M unit :=
  s ← getS;
  if isPolling s then mret tt else modify (set_polling true).

(** [stopUpdatePolling()]: clear the interval. *)
Definition stopUpdatePolling : M unit := modify (set_polling false).

(** [handleDisconnection()] *)
Definition handleDisconnection : M unit :=
  setConnected false ;;
  stopUpdatePolling ;;
  modify (set_timer None) ;;                       (* clearTimeout *)
  s ← getS;
  if reconnectAttempts s <? maxReconnectAttempts then
    let delay := Z.min 30000 (2 ^ reconnectAttempts s * 1000) in
    log LWarning "Telegram disconnected. Reconnecting" ;;
    modify (set_timer (Some delay)) ;;
    emit (ESchedule delay)
  else
    log LError "Failed to reconnect to Telegram after 10 attempts".

(** [testConnection()]: the getMe liveness check. *)
Definition testConnection : M bool :=
  catch
    (p ← transport "/getMe" BNone;
     match p with
     | PBot true =>
         log LSuccess "Connected to Telegram bot" ;;
         modify (set_attempts 0) ;;
         mret true
     | _ => mret false
     end)
    (fun e =>
       log LError ("Failed to connect to Telegram: " +:+ e) ;;
       handleDisconnection ;;
       mret false).

(** A JS string value is truthy when it is present and non-empty. *)
Definition truthy (o : option string) : bool :=
  match o with
  | Some s => negb (String.eqb s "")
  | None => false
  end.

(** The body of the [setTimeout] callback scheduled by
    [handleDisconnection]; [testConnection().then(...)] is awaited.
    [reconnectTimer] is read here as "the reconnect timer pending": once
    the callback runs the timer has fired, so nothing is pending any more
    (the JS field keeps the spent id, on which [clearTimeout] is a no-op). *)
Definition reconnect_fire : M unit :=
  modify (set_timer None) ;;
  s ← getS;
  modify (set_attempts (reconnectAttempts s + 1)) ;;
  if truthy (token s) && truthy (chatId s) then
    success ← testConnection;
    if (success : bool) then (setConnected true ;; startUpdatePolling) else mret tt
  else mret tt.

(** The pending reconnect timer, if any, fires. *)
Definition fire_pending : M unit :=
  s ← getS;
  match reconnectTimer s with
  | Some _ => reconnect_fire
  | None => mret tt
  end.

(** [n] successive expiries of the reconnect timer. *)
Fixpoint fire_times (n : nat) : M unit :=
  match n with
  | O => mret tt
  | S k => fire_pending ;; fire_times k
  end.


(* ------------------------------------------------------------------ *)
(** ** getUpdates and sendMessage *)

Definition updates_of (p : Payload) : list Update :=
  match p with
  | PUpdates l => l            (* response.data.result || [] *)
  | _ => []
  end.

(** What [getUpdates] does once the request has resolved: move the cursor
    to the last element's [update_id]. *)
Definition getUpdates_k (p : Payload) : M (list Update) :=
  let updates := updates_of p in
  match last updates with
  | Some u => modify (set_lastUpdateId (update_id u)) ;; mret updates
  | None => mret updates
  end.

Definition getUpdates_failed (e : string) : M (list Update) :=
  log LError ("Failed to get updates: " +:+ e) ;;
  handleDisconnection ;;
  mret [].

(** [getUpdates()] *)
Definition getUpdates : M (list Update) :=
  s ← getS;
  if negb (connected s) then mret []
  else
    catch
      (p ← transport "/getUpdates" (BOffset (lastUpdateId s + 1));
       getUpdates_k p)
      getUpdates_failed.

(** [sendMessage(text)] *)
Definition sendMessage (text : string) : M bool :=
  s ← getS;
  if negb (connected s) then mret false
  else
    catch
      (_ ← transport "/sendMessage" (BText text); mret true)
      (fun e => log LError ("Failed to send message: " +:+ e) ;; mret false).

(* ------------------------------------------------------------------ *)
(** ** JS string operations used by the dispatcher *)

(** [s.split(c)] for a one-character separator: always at least one part. *)
Fixpoint js_split (c : ascii) (s : string) : list string :=
  match s with
  | EmptyString => [""]
  | String x r =>
      let parts := js_split c r in
      if Ascii.eqb x c then "" :: parts
      else match parts with
           | p :: ps => String x p :: ps
           | [] => [String x ""]
           end
  end.

(** [l.join(sep)] *)
Fixpoint js_join (sep : string) (l : list string) : string :=
  match l with
  | [] => ""
  | [x] => x
  | x :: r => x +:+ sep +:+ js_join sep r
  end.

(** [s.includes(c)] for a one-character [c]. *)
Fixpoint includes (c : ascii) (s : string) : bool :=
  match s with
  | EmptyString => false
  | String x r => Ascii.eqb x c || includes c r
  end.

(** [s.startsWith('/')] *)
Definition startsWith_slash (s : string) : bool :=
  match s with
  | String x _ => Ascii.eqb x "/"%char
  | EmptyString => false
  end.

(** [s.substring(1)] *)
Definition substring1 (s : string) : string :=
  match s with
  | String _ r => r
  | EmptyString => ""
  end.

(** [s.toLowerCase()] on ASCII letters.  JS also lowercases the other
    letters of Unicode; the statements this difference matters to are
    restricted to ASCII text ([ascii_text]). *)
Definition lower_char (c : ascii) : ascii :=
  let n := Ascii.nat_of_ascii c in
  if (65 <=? n)%nat && (n <=? 90)%nat then Ascii.ascii_of_nat (n + 32) else c.

Fixpoint toLowerCase (s : string) : string :=
  match s with
  | EmptyString => EmptyString
  | String x r => String (lower_char x) (toLowerCase r)
  end.

Definition newline : string := String (Ascii.ascii_of_nat 10) "".

(* ------------------------------------------------------------------ *)
(** ** processUpdate *)

(** [this.chatId.toString()] *)
Definition chatId_str : M string :=
  s ← getS;
  match chatId s with
  | Some c => mret c
  | None => throw "Cannot read properties of null (reading 'toString')"
  end.

(** [if (update.message && update.message.chat.id.toString() !==
    this.chatId.toString()) { warn; return; }]: [false] means return. *)
Definition auth_message (u : Update) : M bool :=
  match message u with
  | Some m =>
      c ← chatId_str;
      if negb (String.eqb (msg_chat m) c) then
        log LWarning ("Received message from unauthorized chat: " +:+ msg_chat m) ;;
        mret false
      else mret true
  | None => mret true
  end.

(** The same check for [update.callback_query.message.chat.id]. *)
Definition auth_callback (u : Update) : M bool :=
  match callback_query u with
  | Some cb =>
      match cb_message cb with
      | None => throw "Cannot read properties of undefined (reading 'chat')"
      | Some m =>
          c ← chatId_str;
          if negb (String.eqb (msg_chat m) c) then
            log LWarning ("Received callback from unauthorized chat: " +:+ msg_chat m) ;;
            mret false
          else mret true
      end
  | None => mret true
  end.

(** [await this.commandHandlers[key](...)] *)
Definition invoke (key : string) (h : Handler) (a : Arg) : M unit :=
  emit (EInvoke key a) ;;
  match h a with
  | None => mret tt
  | Some e => throw e
  end.

(** [if (update.callback_query) { ... }].  [commandHandlers s !! k] is
    the own property [k] of [this.commandHandlers]; on the plain object
    [{}] the JS lookup also finds what it inherits from [Object.prototype]
    ([object_prototype_keys]).  The statements that depend on a lookup
    failing exclude those keys. *)
Definition handle_callback (cb : CallbackQuery) : M unit :=
  let data := cb_data cb in
  log LInfo ("Received callback query: " +:+ data) ;;
  _ ← transport "/answerCallbackQuery" (BCallback (cb_id cb));
  s ← getS;
  match commandHandlers s !! data with
  | Some h => invoke data h (ACb cb)
  | None =>
      if includes "_"%char data then
        let parts := js_split "_"%char data in
        let command := hd "" parts in
        let params := tl parts in
        match commandHandlers s !! command with
        | Some h => invoke command h (ACbParam cb (js_join "_" params))
        | None => log LWarning ("No handler for parameterized command: " +:+ command)
        end
      else
        log LWarning ("No handler for command: " +:+ data) ;;
        _ ← sendMessage ("Command not implemented: " +:+ data);
        mret tt
  end.

(** [if (update.message?.text) { ... }], with the same own-property
    lookup as [handle_callback]. *)
Definition handle_message (m : Message) : M unit :=
  match msg_text m with
  | Some t =>
      if String.eqb t "" then mret tt
      else
        log LInfo ("Received message: " +:+ t) ;;
        if startsWith_slash t then
          let parts := js_split " "%char (substring1 t) in
          let command := toLowerCase (hd "" parts) in
          let params := tl parts in
          s ← getS;
          match commandHandlers s !! command with
          | Some h =>
              log LDebug ("Executing command: " +:+ command) ;;
              invoke command h (AMsg m params)
          | None =>
              log LWarning ("Unknown command: " +:+ command) ;;
              _ ← sendMessage ("Unknown command: /" +:+ command +:+ newline +:+
                               "Type /help for available commands.");
              mret tt
          end
        else
          s ← getS;
          match commandHandlers s !! "message" with
          | Some h => invoke "message" h (AMsgDefault m)
          | None => mret tt
          end
  | None => mret tt
  end.

(** The [catch (error)] block of [processUpdate]. *)
Definition processUpdate_failed (e : string) : M unit :=
  log LError ("Error processing update: " +:+ e) ;;
  catch
    (_ ← sendMessage ("Error processing command: " +:+ e); mret tt)
    (fun e2 => log LError ("Failed to send error message: " +:+ e2)).

(** The [try] block of [processUpdate(update)]. *)
Definition processUpdate_body (u : Update) : M unit :=
  ok1 ← auth_message u;
  if (ok1 : bool) then
    ok2 ← auth_callback u;
    if (ok2 : bool) then
      (match callback_query u with
       | Some cb => handle_callback cb
       | None => mret tt
       end) ;;
      (match message u with
       | Some m => handle_message m
       | None => mret tt
       end)
    else mret tt
  else mret tt.

(** [processUpdate(update)] *)
Definition processUpdate (u : Update) : M unit :=
  catch (processUpdate_body u) processUpdate_failed.

(* ------------------------------------------------------------------ *)
(** ** The poll loop *)

(** The callback of [setInterval(..., 3000)] in [startUpdatePolling], run
    to completion. *)
Definition poll_tick : M unit :=
  s ← getS;
  if connected s then
    catch
      (updates ← getUpdates; for_each processUpdate updates)
      (fun e => log LError ("Error in update polling: " +:+ e))
  else mret tt.

(** *** Overlapping ticks

    The interval fires every 3000 ms whether or not the previous callback
    has finished.  A callback runs synchronously up to [await
    this.api.get('/getUpdates', ...)], then is suspended until the answer
    arrives.  [in_flight] lists the suspended callbacks, oldest first. *)
Record Sys := mkSys {
  api_st : St;
  in_flight : list Z         (* the offset each suspended call sent *)
}.

(** The interval fires: [if (this.connected)] then [getUpdates()] sends
    its request (its own [if (!this.connected)] passes too). *)
Definition sys_tick (y : Sys) : Sys :=
  let s := api_st y in
  if connected s then
    let off := lastUpdateId s + 1 in
    mkSys (add_event (ERequest "/getUpdates" (BOffset off)) s)
          (in_flight y ++ [off])
  else y.

(** The rest of the callback once its request resolved with [p]. *)
Definition cycle_resume (p : Payload) : M unit :=
  catch
    (updates ← catch (getUpdates_k p) getUpdates_failed;
     for_each processUpdate updates)
    (fun e => log LError ("Error in update polling: " +:+ e)).

(** The oldest suspended callback receives the answer [p]. *)
Definition sys_resolve (p : Payload) (y : Sys) : Sys :=
  match in_flight y with
  | [] => y
  | _ :: rest => mkSys (fst (cycle_resume p (api_st y))) rest
  end.

(* ------------------------------------------------------------------ *)
(** ** Routing of a callback, as the spec states it

    This is not the code: it is the rule of the spec ("exact key match
    first, then split on the first [_] into [command_param]"), written
    independently of [js_split]/[js_join] so that [handle_callback] can be
    compared with it. *)

(** The part before the first [c] and the whole remainder after it. *)
Fixpoint split_first (c : ascii) (s : string) : option (string * string) :=
  match s with
  | EmptyString => None
  | String x r =>
      if Ascii.eqb x c then Some ("", r)
      else match split_first c r with
           | Some (a, b) => Some (String x a, b)
           | None => None
           end
  end.

(** Which handler a callback with data [d] reaches, with what argument. *)
Definition route_spec (hs : gmap string Handler) (d : string)
    (cb : CallbackQuery) : list (string * Arg) :=
  match hs !! d with
  | Some _ => [(d, ACb cb)]
  | None =>
      match split_first "_"%char d with
      | Some (command, param) =>
          match hs !! command with
          | Some _ => [(command, ACbParam cb param)]
          | None => []
          end
      | None => []
      end
  end.

(* ------------------------------------------------------------------ *)
(** ** Observations of a trace *)

Definition invocations (tr : list Event) : list (string * Arg) :=
  flat_map (fun e => match e with EInvoke k a => [(k, a)] | _ => [] end) tr.

Definition schedules (tr : list Event) : list Z :=
  flat_map (fun e => match e with ESchedule d => [d] | _ => [] end) tr.

Definition waits (tr : list Event) : list Z :=
  flat_map (fun e => match e with EWait d => [d] | _ => [] end) tr.

Definition requests (tr : list Event) : list (string * Body) :=
  flat_map (fun e => match e with ERequest ep b => [(ep, b)] | _ => [] end) tr.

(** The fields other than the oracle and the trace. *)
Definition core (s : St) :=
  (token s, chatId s, lastUpdateId s, connected s, connectionListeners s,
   commandHandlers s, reconnectTimer s, reconnectAttempts s, isPolling s).


(* ------------------------------------------------------------------ *)
(** ** Concrete inputs

    The handlers the app registers ([call_logs], [sms_logs], [contacts],
    [storage], [device_info], [screenshot], [file], [back]); here every
    one of them resolves. *)

Definition ok_handler : Handler := fun _ => None.

Definition app_handlers : gmap string Handler :=
  <["call_logs" := ok_handler]> (<["sms_logs" := ok_handler]>
  (<["contacts" := ok_handler]> (<["storage" := ok_handler]>
  (<["device_info" := ok_handler]> (<["screenshot" := ok_handler]>
  (<["file" := ok_handler]> (<["back" := ok_handler]> ∅))))))).

(** A message of the operator's chat [42], and one of chat [666]. *)
Definition op_msg (text : option string) := mkMessage "42" text.
Definition intruder_msg (text : option string) := mkMessage "666" text.

Definition cb_file42 := mkCallbackQuery "cq7" "file_42" (Some (op_msg None)).
Definition upd_file42 := mkUpdate 7 None (Some cb_file42).
Definition cb_storage := mkCallbackQuery "cq5" "storage" (Some (op_msg None)).
Definition upd_storage := mkUpdate 5 None (Some cb_storage).

(** A handler that throws when run as a [/boom] command, an update
    carrying that command, and the app's handlers with it added. *)
Definition boom_handler : Handler :=
  fun a => match a with AMsg _ _ => Some "boom" | _ => None end.
Definition boom_handlers := <["boom" := boom_handler]> app_handlers.
Definition upd_boom := mkUpdate 4 (Some (op_msg (Some "/boom"))) None.

(** A connected instance for chat [42] with cursor [c], listener [0],
    the app's handlers, and the server's next answers [answers]. *)
Definition connected_st (c : Z) (answers : list Outcome) : St :=
  mkSt (Some "123:ABC") (Some "42") c true [0%nat] app_handlers None 0 true
       answers [].

(* ------------------------------------------------------------------ *)
(** ** Listeners, handler registration and the other senders *)

Definition set_listeners ls s := mkSt (token s) (chatId s) (lastUpdateId s)
  (connected s) ls (commandHandlers s) (reconnectTimer s)
  (reconnectAttempts s) (isPolling s) (net s) (trace s).

(** [addConnectionListener(listener)]: every listener here is a function,
    so [typeof listener === 'function'] holds; it is pushed, then called
    at once with the current status. *)
Definition addConnectionListener (l : nat) : M unit :=
  modify (fun s => set_listeners (connectionListeners s ++ [l]) s) ;;
  s ← getS;
  emit (ENotify l (connected s)).

(** [removeConnectionListener(listener)]: keep the listeners [l !== listener]. *)
Definition removeConnectionListener (l : nat) : M unit :=
  modify (fun s => set_listeners
    (List.filter (fun x => negb (Nat.eqb x l)) (connectionListeners s)) s).

(** [registerCommandHandler(command, handler)]: a [Handler] is a function. *)
Definition registerCommandHandler (command : string) (h : Handler) : M unit :=
  modify (fun s => set_handlers (<[command := h]> (commandHandlers s)) s) ;;
  log LDebug ("Registered command handler: " +:+ command).

(** The [deviceInfo] argument of [sendDeviceInfo] as the method sees it:
    [None] when it is falsy; otherwise what evaluating the message
    template on it gives, the text ([inl]) or the error it throws ([inr]),
    e.g. reading [location.latitude] when [location] is missing. *)
Definition DeviceInfo : Type := option (string + string).

(** [sendDeviceInfo(deviceInfo)]; the keyboard of the second message is
    not part of [BText]. *)
Definition sendDeviceInfo (d : DeviceInfo) : M bool :=
  s ← getS;
  if negb (connected s) then mret false
  else
    match d with
    | None => mret false
    | Some built =>
        catch
          (message ← (match built with inl t => mret t | inr e => throw e end);
           _ ← sendMessage message;
           _ ← sendMessage "Choose an option:";
           mret true)
          (fun e => log LError ("Failed to send device info: " +:+ e) ;; mret false)
    end.

(** [name: filePath.split('/').pop()] in [sendFile]: the array is never
    empty, so [pop()] gives its last element. *)
Definition document_name (filePath : string) : string :=
  default "" (last (js_split "/"%char filePath)).

(** The members a plain object inherits from [Object.prototype]. *)
Definition object_prototype_keys : list string :=
  ["constructor"; "__defineGetter__"; "__defineSetter__"; "hasOwnProperty";
   "__lookupGetter__"; "__lookupSetter__"; "isPrototypeOf";
   "propertyIsEnumerable"; "toString"; "valueOf"; "__proto__"; "toLocaleString"].

Definition inherited_key (k : string) : bool :=
  existsb (String.eqb k) object_prototype_keys.

(** Every character of [s] is 7-bit ASCII. *)
Fixpoint ascii_text (s : string) : bool :=
  match s with
  | EmptyString => true
  | String c r => (Ascii.nat_of_ascii c <? 128)%nat && ascii_text r
  end.

(** Listener calls recorded in a trace. *)
Definition notifications (tr : list Event) : list (nat * bool) :=
  flat_map (fun e => match e with ENotify l b => [(l, b)] | _ => [] end) tr.

(* ------------------------------------------------------------------ *)
(** ** Frame relations: what an action may change *)

(** A relation on states that is reflexive and transitive. *)
Class Pre (R : St -> St -> Prop) := {
  pre_refl : forall s, R s s;
  pre_trans : forall s1 s2 s3, R s1 s2 -> R s2 s3 -> R s1 s3
}.

(** [m] leaves [R] between the state before and the state after. *)
Definition keeps (R : St -> St -> Prop) {A} (m : M A) : Prop :=
  forall s, R s (fst (m s)).

(** The dispatcher only touches the oracle and the trace. *)
Definition core_eq (s s' : St) : Prop := core s' = core s.

(** ... and a quiet action, in addition, invokes no handler and
    schedules no reconnect. *)
Definition quiet (s s' : St) : Prop :=
  core s' = core s /\
  exists d, trace s' = trace s ++ d /\ invocations d = [] /\ schedules d = [].

(* ================================================================== *)
(** * Proofs *)

(** Reduce an unfolded monadic computation without unfolding the
    program's own definitions. *)
Ltac red_m := cbn beta iota zeta delta [negb andb orb Bool.eqb fst snd].

(** ** Frame reasoning: what an action may change *)

Section Keeps.
Context {R : St -> St -> Prop} `{Pre R}.

Lemma keeps_ret {A} (a : A) : keeps R (mret a).
Proof. intro s. apply pre_refl. Qed.

Lemma keeps_getS : keeps R getS.
Proof. intro s. apply pre_refl. Qed.

Lemma keeps_throw {A} (e : string) : keeps R (throw (A:=A) e).
Proof. intro s. apply pre_refl. Qed.

Lemma keeps_bind {A B} (m : M A) (f : A -> M B) :
  keeps R m -> (forall a, keeps R (f a)) -> keeps R (m ≫= f).
Proof.
  intros Hm Hf s. unfold mbind, M_bind.
  specialize (Hm s). destruct (m s) as [s1 [a|e]]; simpl in *; auto.
  eapply pre_trans; [exact Hm | apply Hf].
Qed.

Lemma keeps_catch {A} (m : M A) (h : string -> M A) :
  keeps R m -> (forall e, keeps R (h e)) -> keeps R (catch m h).
Proof.
  intros Hm Hh s. unfold catch.
  specialize (Hm s). destruct (m s) as [s1 [a|e]]; simpl in *; auto.
  eapply pre_trans; [exact Hm | apply Hh].
Qed.

Lemma keeps_for_each {A} (f : A -> M unit) (l : list A) :
  (forall x, keeps R (f x)) -> keeps R (for_each f l).
Proof.
  intros Hf. induction l as [|x r IH]; simpl.
  - apply keeps_ret.
  - apply keeps_bind; auto.
Qed.
End Keeps.

Create HintDb leaf.


#[global] Instance core_eq_pre : Pre core_eq.
Proof. split; unfold core_eq; [reflexivity | congruence]. Qed.

#[global] Instance quiet_pre : Pre quiet.
Proof.
  split.
  - intro s. split; [reflexivity | exists []; rewrite app_nil_r; auto].
  - intros s1 s2 s3 [C1 [d1 [T1 [I1 S1]]]] [C2 [d2 [T2 [I2 S2]]]]. split; [congruence|].
    exists (d1 ++ d2). rewrite T2, T1, app_assoc. split; [reflexivity|].
    unfold invocations, schedules in *. rewrite !flat_map_app, I1, I2, S1, S2.
    split; reflexivity.
Qed.

Lemma keeps_quiet_core {A} (m : M A) : keeps quiet m -> keeps core_eq m.
Proof. intros Hm s. destruct (Hm s) as [C _]. exact C. Qed.

Lemma quiet_event e s :
  match e with EInvoke _ _ | ESchedule _ => False | _ => True end ->
  quiet s (add_event e s).
Proof.
  intros He. split; [reflexivity|]. exists [e]. split; [reflexivity|].
  destruct e; simpl; tauto.
Qed.

Lemma keeps_log l t : keeps quiet (log l t).
Proof. intro s. apply quiet_event. exact I. Qed.
#[export] Hint Resolve keeps_log : leaf.

Lemma keeps_emit_quiet e :
  match e with EInvoke _ _ | ESchedule _ => False | _ => True end ->
  keeps quiet (emit e).
Proof. intros He s. apply quiet_event, He. Qed.

Lemma keeps_wait d : keeps quiet (emit (EWait d)).
Proof. apply keeps_emit_quiet. exact I. Qed.
#[export] Hint Resolve keeps_wait : leaf.

(** Split a [keeps] goal along the structure of the action, closing the
    leaves with the lemmas of the [leaf] database first. *)
Ltac keeps_split :=
  repeat first
    [ solve [eauto with leaf]
    | progress (intros; cbn beta iota zeta)
    | apply keeps_bind; [..|intro]
    | apply keeps_catch; [..|intro]
    | apply keeps_for_each; intro
    | apply keeps_ret
    | apply keeps_getS
    | apply keeps_throw
    | match goal with
      | |- keeps _ (match ?x with _ => _ end) => destruct x
      | |- keeps _ (if ?b then _ else _) => destruct b
      end ].

Lemma keeps_issue ep b : keeps quiet (issue ep b).
Proof.
  intro s. unfold issue. simpl.
  destruct (net s) as [|o rest];
    (split; [reflexivity | exists [ERequest ep b]; repeat split]).
Qed.
#[export] Hint Resolve keeps_issue : leaf.

Lemma keeps_attempt r c ep b : keeps quiet (attempt r c ep b).
Proof.
  revert c. induction r as [|r IH]; intro c; simpl; keeps_split.
Qed.

Lemma keeps_transport ep b : keeps quiet (transport ep b).
Proof. apply keeps_attempt. Qed.
#[export] Hint Resolve keeps_transport : leaf.

Lemma keeps_sendMessage t : keeps quiet (sendMessage t).
Proof.
  unfold sendMessage. keeps_split.
Qed.
#[export] Hint Resolve keeps_sendMessage : leaf.

(** ** The dispatcher: frame and absence of escaping exceptions *)

Lemma keeps_invoke k h a : keeps core_eq (invoke k h a).
Proof. unfold invoke. keeps_split; intro s; reflexivity. Qed.

Lemma keeps_processUpdate_failed e : keeps quiet (processUpdate_failed e).
Proof. unfold processUpdate_failed. keeps_split. Qed.

#[export] Hint Resolve keeps_quiet_core keeps_invoke keeps_processUpdate_failed : leaf.

Lemma keeps_chatId_str : keeps quiet chatId_str.
Proof. unfold chatId_str. keeps_split. Qed.
#[export] Hint Resolve keeps_chatId_str : leaf.

Lemma keeps_processUpdate_body u : keeps core_eq (processUpdate_body u).
Proof.
  unfold processUpdate_body, auth_message, auth_callback,
    handle_callback, handle_message.
  keeps_split.
Qed.

Lemma keeps_processUpdate u : keeps core_eq (processUpdate u).
Proof.
  unfold processUpdate. apply keeps_catch;
    [apply keeps_processUpdate_body | intro; eauto with leaf].
Qed.

Lemma processUpdate_failed_ok e s : snd (processUpdate_failed e s) = Ok tt.
Proof.
  unfold processUpdate_failed, catch, mbind, M_bind, log, emit, modify. simpl.
  destruct (sendMessage _ _) as [s1 [b|e2]]; reflexivity.
Qed.

(** No exception escapes [processUpdate]. *)
Lemma processUpdate_ok u s : snd (processUpdate u s) = Ok tt.
Proof.
  unfold processUpdate, catch.
  destruct (processUpdate_body u s) as [s1 [[]|e]]; [reflexivity|].
  apply processUpdate_failed_ok.
Qed.

Lemma for_each_ok {A} (f : A -> M unit) (l : list A) s :
  (forall x s, snd (f x s) = Ok tt) -> snd (for_each f l s) = Ok tt.
Proof.
  intros Hf. revert s. induction l as [|x r IH]; intro s; simpl; [reflexivity|].
  unfold mbind, M_bind. specialize (Hf x s).
  destruct (f x s) as [s1 [[]|e]]; [apply IH | discriminate].
Qed.

Lemma for_each_app {A} (f : A -> M unit) (l1 l2 : list A) s :
  (forall x s, snd (f x s) = Ok tt) ->
  for_each f (l1 ++ l2) s = for_each f l2 (fst (for_each f l1 s)).
Proof.
  intros Hf. revert s. induction l1 as [|x r IH]; intro s; simpl; [reflexivity|].
  unfold mbind, M_bind. specialize (Hf x s).
  destruct (f x s) as [s1 [[]|e]]; [apply IH | discriminate].
Qed.

(** ** setConnected *)

Lemma notify_all_run (b : bool) (ls : list nat) s :
  for_each (fun l => emit (ENotify l b)) ls s =
  (add_events (map (fun l => ENotify l b) ls) s, Ok tt).
Proof.
  revert s. induction ls as [|l r IH]; intro s; simpl; [reflexivity|].
  unfold mbind, M_bind. apply IH.
Qed.

Lemma set_connected_field_same s : set_connected_field (connected s) s = s.
Proof. destruct s; reflexivity. Qed.

Lemma setConnected_run b s :
  setConnected b s =
  (if Bool.eqb (connected s) b then set_connected_field b s
   else add_events
          (ELog LInfo (if b then "Telegram connection status: Connected"
                       else "Telegram connection status: Disconnected")
           :: map (fun l => ENotify l b) (connectionListeners s))
          (set_connected_field b s),
   Ok tt).
Proof.
  unfold setConnected, mbind, M_bind, getS, modify. simpl.
  destruct (Bool.eqb (connected s) b); simpl; [reflexivity|].
  apply notify_all_run.
Qed.

(** C9 *)
(** Claim C9: setting the connection state to the value it already has
    is a no-op: [setConnected(connected)] changes nothing and fires no
    listener notification (the comparison is on the boolean value). *)
Theorem setConnected_same_noop (s : St) :
  setConnected (connected s) s = (s, Ok tt).
Proof.
  rewrite setConnected_run, Bool.eqb_reflx. f_equal.
  apply set_connected_field_same.
Qed.

(** ** The authorization filter *)

(** Claim C3: with the chat id configured, an update whose message, or
    whose callback query's message, comes from another chat is dropped:
    [processUpdate] only logs a warning; no handler is invoked, no
    request (reply, acknowledgement) is sent, nothing else changes. *)
Theorem processUpdate_unauthorized (u : Update) (s : St) (c : string)
    (Hc : chatId s = Some c)
    (Hu : (exists m, message u = Some m /\ msg_chat m <> c) \/
          (exists cb m, callback_query u = Some cb /\ cb_message cb = Some m /\
                        msg_chat m <> c)) :
  exists w, processUpdate u s = (add_event (ELog LWarning w) s, Ok tt).
Proof.
  unfold processUpdate, processUpdate_body, auth_message, auth_callback,
    chatId_str, log, emit, modify, catch, getS, mbind, M_bind, mret, M_ret.
  red_m.
  destruct Hu as [[m [Hm Hne]] | [cb [m [Hcb [Hm Hne]]]]];
    apply String.eqb_neq in Hne.
  - rewrite Hm, Hc; red_m. rewrite Hne; red_m. eexists. reflexivity.
  - rewrite Hcb, Hm; red_m.
    destruct (message u) as [m0|]; rewrite ?Hc; red_m.
    + destruct (String.eqb (msg_chat m0) c); red_m.
      * rewrite ?Hc, Hne; red_m. eexists. reflexivity.
      * eexists. reflexivity.
    + rewrite Hne; red_m. eexists. reflexivity.
Qed.

(** ** JS [split] / [join] against [split_first] *)

Lemma js_split_cons c s : exists p ps, js_split c s = p :: ps.
Proof.
  induction s as [|x r [p [ps IH]]]; simpl; [eauto|].
  rewrite IH. destruct (Ascii.eqb x c); eauto.
Qed.

Lemma js_join_cons sep x p ps :
  js_join sep (String x p :: ps) = String x (js_join sep (p :: ps)).
Proof. destruct ps; reflexivity. Qed.

(** Splitting on [c] and joining with [c] gives the string back. *)
Lemma js_join_split c s : js_join (String c "") (js_split c s) = s.
Proof.
  induction s as [|x r IH]; simpl; [reflexivity|].
  destruct (js_split_cons c r) as [p [ps E]].
  destruct (Ascii.eqb x c) eqn:Ex.
  - apply Ascii.eqb_eq in Ex. subst x. rewrite E in *.
    transitivity ("" +:+ String c "" +:+ js_join (String c "") (p :: ps));
      [reflexivity | rewrite IH; reflexivity].
  - rewrite E in *. rewrite js_join_cons, IH. reflexivity.
Qed.

(** [const [command, ...params] = data.split('_')] and [params.join('_')]
    compute the split at the first underscore. *)
Lemma js_split_first c s :
  split_first c s =
  if includes c s
  then Some (hd "" (js_split c s), js_join (String c "") (tl (js_split c s)))
  else None.
Proof.
  induction s as [|x r IH]; simpl; [reflexivity|].
  destruct (js_split_cons c r) as [p [ps E]].
  destruct (Ascii.eqb x c) eqn:Ex; simpl.
  - rewrite js_join_split. reflexivity.
  - rewrite IH, E. simpl. destruct (includes c r); reflexivity.
Qed.

(** ** Effects of the transport and of quiet actions *)

Lemma transport_first_ok ep b s p rest :
  net s = Resp p :: rest ->
  transport ep b s = (set_net rest (add_event (ERequest ep b) s), Ok p).
Proof.
  intros Hn. unfold transport, retry. cbn [attempt].
  unfold issue, mbind, M_bind. red_m.
  assert (Hn' : net (add_event (ERequest ep b) s) = Resp p :: rest) by exact Hn.
  rewrite Hn'. reflexivity.
Qed.

Lemma trace_add_event e s : trace (add_event e s) = trace s ++ [e].
Proof. reflexivity. Qed.

Lemma invocations_app l1 l2 :
  invocations (l1 ++ l2) = invocations l1 ++ invocations l2.
Proof. apply flat_map_app. Qed.

Lemma quiet_invocations s s' : quiet s s' -> invocations (trace s') = invocations (trace s).
Proof.
  intros [_ [d [T [I _]]]]. rewrite T, invocations_app, I, app_nil_r. reflexivity.
Qed.

Lemma catch_quiet_invocations {A} (m : M A) (h : string -> M A) s :
  (forall e, keeps quiet (h e)) ->
  invocations (trace (fst (catch m h s))) = invocations (trace (fst (m s))).
Proof.
  intros Hh. unfold catch. destruct (m s) as [s1 [a|e]]; [reflexivity|].
  apply quiet_invocations, Hh.
Qed.

Lemma invoke_invocations k h a s :
  invocations (trace (fst (invoke k h a s))) = invocations (trace s) ++ [(k, a)].
Proof.
  unfold invoke, emit, modify, mbind, M_bind. red_m.
  destruct (h a); simpl; rewrite invocations_app; reflexivity.
Qed.

Lemma handle_callback_invocations cb s p rest :
  net s = Resp p :: rest ->
  invocations (trace (fst (handle_callback cb s))) =
  invocations (trace s) ++ route_spec (commandHandlers s) (cb_data cb) cb.
Proof.
  intros Hn. unfold handle_callback, log, emit, modify, getS, mbind, M_bind, mret, M_ret.
  red_m. rewrite (transport_first_ok _ _ _ p rest) by exact Hn. red_m.
  unfold route_spec. rewrite js_split_first.
  set (s1 := set_net rest _).
  assert (Hinv : invocations (trace s1) = invocations (trace s)).
  { subst s1. simpl. rewrite !invocations_app, app_nil_r. simpl.
    rewrite app_nil_r. reflexivity. }
  change (commandHandlers s1) with (commandHandlers s).
  destruct (commandHandlers s !! cb_data cb) as [h|].
  - rewrite invoke_invocations, Hinv. reflexivity.
  - destruct (includes "_"%char (cb_data cb)); red_m.
    + destruct (commandHandlers s !! hd "" (js_split "_"%char (cb_data cb))) as [h|];
        red_m.
      * rewrite invoke_invocations, Hinv. reflexivity.
      * rewrite trace_add_event, invocations_app, Hinv. simpl.
        rewrite !app_nil_r. reflexivity.
    + destruct (sendMessage _ _) as [s2 [b|e]] eqn:Es; simpl.
      * change s2 with (fst (s2, @Ok bool b)). rewrite <- Es.
        rewrite (quiet_invocations _ _ (keeps_sendMessage _ _)).
        rewrite trace_add_event, invocations_app, Hinv. simpl.
        rewrite !app_nil_r. reflexivity.
      * change s2 with (fst (s2, @Exn bool e)). rewrite <- Es.
        rewrite (quiet_invocations _ _ (keeps_sendMessage _ _)).
        rewrite trace_add_event, invocations_app, Hinv. simpl.
        rewrite !app_nil_r. reflexivity.
Qed.

(** Claim C7: for an authorized callback update with data [d] whose
    acknowledgement ([answerCallbackQuery]) is answered, the handlers
    invoked are exactly those of [route_spec]: the handler registered
    under [d] itself if there is one; otherwise, if [d] contains [_], the
    handler registered under the part before the first [_], given the
    whole remainder as its parameter; otherwise none. *)
Theorem callback_routing (c : string) (u : Update) (cb : CallbackQuery)
    (m : Message) (s : St) (p : Payload) (rest : list Outcome)
    (Hc : chatId s = Some c) (Hu : message u = None)
    (Hcb : callback_query u = Some cb) (Hm : cb_message cb = Some m)
    (Hauth : msg_chat m = c) (Hn : net s = Resp p :: rest) :
  invocations (trace (fst (processUpdate u s))) =
  invocations (trace s) ++ route_spec (commandHandlers s) (cb_data cb) cb.
Proof.
  unfold processUpdate.
  rewrite catch_quiet_invocations by apply keeps_processUpdate_failed.
  unfold processUpdate_body, auth_message, auth_callback, chatId_str,
    getS, mbind, M_bind, mret, M_ret.
  rewrite Hu, Hcb, Hm; red_m. rewrite Hc; red_m.
  subst c. rewrite String.eqb_refl; red_m.
  rewrite <- (handle_callback_invocations cb s p rest Hn).
  destruct (handle_callback cb s) as [s1 [[]|e]]; reflexivity.
Qed.

(** The spec's scenario: callback data [file_42], no handler for
    [file_42], a handler for [file]: the [file] handler is invoked with
    the parameter ["42"]. *)
Lemma callback_routing_witness :
  invocations (trace (fst (processUpdate upd_file42 (connected_st 6 [Resp PNone])))) =
  [("file", ACbParam cb_file42 "42")].
Proof.
  rewrite (callback_routing "42" upd_file42 cb_file42 (op_msg None)
             (connected_st 6 [Resp PNone]) PNone []);
    try reflexivity.
Defined.

(** Claim C10: an authorized text message whose (non-empty) text does not
    start with [/] is not parsed as a command: without a ["message"]
    handler only the "Received message" line is logged (no reply, no
    request); with one, that handler alone is invoked, once, with the
    message (and nothing else happens when it resolves). *)
Theorem plain_text_message (c t : string) (m : Message) (u : Update) (s : St)
    (Hc : chatId s = Some c) (Hu : message u = Some m)
    (Hcb : callback_query u = None) (Hauth : msg_chat m = c)
    (Ht : msg_text m = Some t) (Hne : t <> "")
    (Hslash : startsWith_slash t = false) :
  let logged := add_event (ELog LInfo ("Received message: " +:+ t)) s in
  match commandHandlers s !! "message" with
  | Some h =>
      invocations (trace (fst (processUpdate u s))) =
        invocations (trace s) ++ [("message", AMsgDefault m)] /\
      (h (AMsgDefault m) = None ->
       processUpdate u s = (add_event (EInvoke "message" (AMsgDefault m)) logged, Ok tt))
  | None => processUpdate u s = (logged, Ok tt)
  end.
Proof.
  intros logged.
  assert (Hbody : processUpdate_body u s =
            match commandHandlers s !! "message" with
            | Some h => invoke "message" h (AMsgDefault m) logged
            | None => (logged, Ok tt)
            end).
  { unfold processUpdate_body, auth_message, auth_callback, chatId_str,
      handle_message, log, emit, modify, getS, mbind, M_bind, mret, M_ret.
    rewrite Hu; red_m. rewrite Hc; red_m. subst c. rewrite String.eqb_refl; red_m.
    rewrite Hcb; red_m. rewrite Ht; red_m.
    apply String.eqb_neq in Hne. rewrite Hne; red_m. rewrite Hslash; red_m.
    change (commandHandlers (add_event (ELog LInfo ("Received message: " +:+ t)) s))
      with (commandHandlers s).
    destruct (commandHandlers s !! "message"); reflexivity. }
  destruct (commandHandlers s !! "message") as [h|] eqn:Eh.
  - split.
    + unfold processUpdate.
      rewrite catch_quiet_invocations by apply keeps_processUpdate_failed.
      rewrite Hbody, invoke_invocations. subst logged.
      rewrite trace_add_event, invocations_app. simpl. rewrite app_nil_r. reflexivity.
    + intros Hh. unfold processUpdate, catch. rewrite Hbody.
      unfold invoke, emit, modify, mbind, M_bind, mret, M_ret. red_m.
      rewrite Hh. reflexivity.
  - unfold processUpdate, catch. rewrite Hbody. reflexivity.
Qed.

Lemma plain_text_message_witness :
  invocations (trace (fst (processUpdate (mkUpdate 8 (Some (op_msg (Some "hello"))) None)
                             (connected_st 6 [])))) = [].
Proof.
  pose proof (plain_text_message "42" "hello" (op_msg (Some "hello"))
                (mkUpdate 8 (Some (op_msg (Some "hello"))) None) (connected_st 6 [])
                eq_refl eq_refl eq_refl eq_refl eq_refl ltac:(discriminate) eq_refl) as H.
  simpl in H. rewrite H. reflexivity.
Defined.

(** ** Traces grow at the end *)

Lemma quiet_prefix s s' : quiet s s' -> exists d, trace s' = trace s ++ d.
Proof. intros [_ [d [T _]]]. eauto. Qed.

Lemma attempt_trace r c ep b s :
  exists d, trace (fst (attempt r c ep b s)) = trace s ++ ERequest ep b :: d.
Proof.
  assert (Hk : forall o, keeps quiet
    (match o with
     | Resp p => mret p
     | Fail st =>
         if retriable st then
           match r with
           | S r' => log LWarning "Retrying Telegram API request" ;;
                     emit (EWait (2 ^ Z.of_nat (S c) * 1000)) ;; attempt r' (S c) ep b
           | O => log LError "Telegram API error after retries" ;; throw (error_message st)
           end
         else log LError "Telegram API error after retries" ;; throw (error_message st)
     end)).
  { intros o. keeps_split; apply keeps_attempt. }
  destruct r as [|r]; cbn [attempt]; unfold mbind at 1, M_bind at 1, issue; red_m;
    destruct (net (add_event (ERequest ep b) s)) as [|o rest]; red_m;
    [ destruct (quiet_prefix _ _ (Hk (Fail None) (add_event (ERequest ep b) s))) as [d Hd]
    | destruct (quiet_prefix _ _ (Hk o (set_net rest (add_event (ERequest ep b) s)))) as [d Hd]
    | destruct (quiet_prefix _ _ (Hk (Fail None) (add_event (ERequest ep b) s))) as [d Hd]
    | destruct (quiet_prefix _ _ (Hk o (set_net rest (add_event (ERequest ep b) s)))) as [d Hd] ];
    exists d; rewrite Hd; simpl; rewrite <- app_assoc; reflexivity.
Qed.

Lemma transport_trace ep b s :
  exists d, trace (fst (transport ep b s)) = trace s ++ ERequest ep b :: d.
Proof. apply attempt_trace. Qed.

(** A connected [sendMessage(text)] sends [text]. *)
Lemma sendMessage_trace text s :
  connected s = true ->
  exists d, trace (fst (sendMessage text s)) =
            trace s ++ ERequest "/sendMessage" (BText text) :: d.
Proof.
  intros Hc. unfold sendMessage, getS, catch, mbind, M_bind, mret, M_ret. red_m.
  rewrite Hc; red_m.
  destruct (transport_trace "/sendMessage" (BText text) s) as [d Hd].
  destruct (transport "/sendMessage" (BText text) s) as [s1 [a|e]] eqn:E; simpl in *.
  - exists d. exact Hd.
  - exists (d ++ [ELog LError ("Failed to send message: " +:+ e)]).
    rewrite Hd. simpl. rewrite <- app_assoc. reflexivity.
Qed.

(** What the [catch] block of [processUpdate] leaves in the trace. *)
Lemma processUpdate_failed_trace e s :
  exists d,
    trace (fst (processUpdate_failed e s)) =
      trace s ++ ELog LError ("Error processing update: " +:+ e) :: d /\
    (connected s = true ->
     exists d', d = ERequest "/sendMessage" (BText ("Error processing command: " +:+ e)) :: d').
Proof.
  unfold processUpdate_failed, log, emit, modify, catch, mbind, M_bind, mret, M_ret. red_m.
  set (s1 := add_event _ s).
  destruct (quiet_prefix _ _ (keeps_sendMessage ("Error processing command: " +:+ e) s1))
    as [d Hd].
  assert (Hsend : connected s = true -> exists d',
    trace (fst (sendMessage ("Error processing command: " +:+ e) s1)) =
      trace s1 ++ ERequest "/sendMessage" (BText ("Error processing command: " +:+ e)) :: d')
    by (intro Hc; apply sendMessage_trace; exact Hc).
  destruct (sendMessage _ s1) as [s2 [b|e2]] eqn:E; simpl in *.
  - exists d. split.
    + rewrite Hd. subst s1. simpl. rewrite <- app_assoc. reflexivity.
    + intros Hc. destruct (Hsend Hc) as [d' Hd']. rewrite Hd in Hd'.
      apply app_inv_head in Hd'. eauto.
  - exists (d ++ [ELog LError ("Failed to send error message: " +:+ e2)]). split.
    + rewrite Hd. subst s1. simpl. rewrite <- !app_assoc. reflexivity.
    + intros Hc. destruct (Hsend Hc) as [d' Hd']. rewrite Hd in Hd'.
      apply app_inv_head in Hd'. rewrite Hd'. eauto.
Qed.

(** ** The poll cycle *)

Lemma catch_ok {A} (m : M A) h s a s1 : m s = (s1, Ok a) -> catch m h s = (s1, Ok a).
Proof. intros E. unfold catch. rewrite E. reflexivity. Qed.

Lemma for_each_processUpdate_ok l s : snd (for_each processUpdate l s) = Ok tt.
Proof. apply for_each_ok, processUpdate_ok. Qed.

Lemma keeps_for_each_processUpdate l : keeps core_eq (for_each processUpdate l).
Proof. apply keeps_for_each. intro. apply keeps_processUpdate. Qed.

(** A tick whose [getUpdates] request is answered with [batch]: the
    cursor moves to the last element, then the batch is processed in
    order. *)
Lemma poll_tick_answered s batch rest :
  connected s = true -> net s = Resp (PUpdates batch) :: rest ->
  poll_tick s =
  for_each processUpdate batch
    (match last batch with
     | Some u => set_lastUpdateId (update_id u)
     | None => fun s' => s'
     end (set_net rest (add_event (ERequest "/getUpdates" (BOffset (lastUpdateId s + 1))) s))).
Proof.
  intros Hc Hn. unfold poll_tick, getUpdates, getS, catch, mbind, M_bind. red_m.
  repeat (rewrite Hc; red_m). rewrite (transport_first_ok _ _ _ _ rest Hn); red_m.
  unfold getUpdates_k, updates_of, modify, mbind, M_bind, mret, M_ret.
  destruct (last batch) as [u|]; red_m;
  match goal with
  | |- context [for_each processUpdate batch ?x] =>
      pose proof (for_each_processUpdate_ok batch x) as Hok;
      destruct (for_each processUpdate batch x) as [s2 [[]|e]];
      [reflexivity | discriminate]
  end.
Qed.

Lemma core_eq_fields s s' :
  core_eq s s' ->
  lastUpdateId s' = lastUpdateId s /\ connected s' = connected s /\
  isPolling s' = isPolling s /\ reconnectTimer s' = reconnectTimer s /\
  reconnectAttempts s' = reconnectAttempts s.
Proof. unfold core_eq, core. intros H. injection H. intros. repeat split; assumption. Qed.




(** ** Failure isolation *)

(** Claim C6: an exception of a handler does not escape [processUpdate]
    (which only touches the oracle and the trace); the updates after it in
    the batch are processed from the state it left; the exception is
    logged and, when connected, reported with a [/sendMessage]; and a
    tick whose [getUpdates] is answered ends normally with the
    connection and the interval as they were, so the next tick runs. *)
Theorem handler_failure_isolated :
  (forall u s, snd (processUpdate u s) = Ok tt /\ core (fst (processUpdate u s)) = core s) /\
  (forall pre u post s,
     for_each processUpdate (pre ++ u :: post) s =
     for_each processUpdate post (fst (processUpdate u (fst (for_each processUpdate pre s))))) /\
  (forall u s s' e,
     processUpdate_body u s = (s', Exn e) ->
     processUpdate u s = processUpdate_failed e s' /\
     exists d,
       trace (fst (processUpdate u s)) =
         trace s' ++ ELog LError ("Error processing update: " +:+ e) :: d /\
       (connected s = true ->
        exists d', d = ERequest "/sendMessage" (BText ("Error processing command: " +:+ e)) :: d')) /\
  (forall s batch rest,
     connected s = true -> net s = Resp (PUpdates batch) :: rest ->
     snd (poll_tick s) = Ok tt /\ connected (fst (poll_tick s)) = true /\
     isPolling (fst (poll_tick s)) = isPolling s).
Proof.
  split; [|split; [|split]].
  - intros u s. split; [apply processUpdate_ok | apply keeps_processUpdate].
  - intros pre u post s.
    rewrite (for_each_app _ _ _ _ processUpdate_ok). cbn [for_each].
    unfold mbind, M_bind.
    pose proof (processUpdate_ok u (fst (for_each processUpdate pre s))) as Hok.
    destruct (processUpdate u _) as [s1 [[]|e]]; [reflexivity | discriminate].
  - intros u s s' e Hb.
    assert (Hp : processUpdate u s = processUpdate_failed e s')
      by (unfold processUpdate, catch; rewrite Hb; reflexivity).
    split; [exact Hp|]. rewrite Hp.
    destruct (processUpdate_failed_trace e s') as [d [Hd Hs]].
    exists d. split; [exact Hd|]. intros Hc. apply Hs.
    pose proof (keeps_processUpdate_body u s) as Hk. rewrite Hb in Hk.
    destruct (core_eq_fields _ _ Hk) as [_ [Hco _]]. simpl in Hco. congruence.
  - intros s batch rest Hc Hn. rewrite (poll_tick_answered s batch rest Hc Hn).
    split; [apply for_each_processUpdate_ok|].
    match goal with |- context [for_each processUpdate batch ?x] =>
      destruct (core_eq_fields _ _ (keeps_for_each_processUpdate batch x))
        as [_ [Hco [Hpo _]]] end.
    rewrite Hco, Hpo. destruct (last batch); simpl; split; congruence.
Qed.

(** A batch whose first update runs a throwing [/boom] command: the
    second update is still dispatched, the error is reported to the chat,
    and the tick ends connected with the interval armed. *)
Lemma handler_failure_isolated_witness :
  let s := mkSt (Some "123:ABC") (Some "42") 3 true [0%nat] boom_handlers None 0 true
             [Resp (PUpdates [upd_boom; upd_storage]); Resp PNone; Resp PNone] [] in
  (snd (poll_tick s) = Ok tt /\ connected (fst (poll_tick s)) = true /\
   isPolling (fst (poll_tick s)) = isPolling s) /\
  invocations (trace (fst (poll_tick s))) =
    [("boom", AMsg (op_msg (Some "/boom")) []); ("storage", ACb cb_storage)] /\
  requests (trace (fst (poll_tick s))) =
    [("/getUpdates", BOffset 4);
     ("/sendMessage", BText "Error processing command: boom");
     ("/answerCallbackQuery", BCallback "cq5")].
Proof.
  intros s. split; [|split].
  - exact (proj2 (proj2 (proj2 handler_failure_isolated)) s
             [upd_boom; upd_storage] [Resp PNone; Resp PNone] eq_refl eq_refl).
  - vm_compute. reflexivity.
  - vm_compute. reflexivity.
Defined.

(** ** The reconnection state machine *)

Lemma add_events_eq l s :
  add_events l s =
  mkSt (token s) (chatId s) (lastUpdateId s) (connected s) (connectionListeners s)
       (commandHandlers s) (reconnectTimer s) (reconnectAttempts s) (isPolling s)
       (net s) (trace s ++ l).
Proof.
  revert s. induction l as [|e r IH]; intro s; simpl.
  - destruct s; simpl. rewrite app_nil_r. reflexivity.
  - rewrite IH. simpl. rewrite <- app_assoc. reflexivity.
Qed.

Lemma schedules_app l1 l2 : schedules (l1 ++ l2) = schedules l1 ++ schedules l2.
Proof. apply flat_map_app. Qed.

Lemma schedules_notify (b : bool) ls : schedules (map (fun l => ENotify l b) ls) = [].
Proof. induction ls; simpl; auto. Qed.

(** [handleDisconnection] in closed form. *)
Lemma handleDisconnection_run s :
  exists d,
    handleDisconnection s =
    (mkSt (token s) (chatId s) (lastUpdateId s) false (connectionListeners s)
          (commandHandlers s)
          (if reconnectAttempts s <? 10
           then Some (Z.min 30000 (2 ^ reconnectAttempts s * 1000)) else None)
          (reconnectAttempts s) false (net s) (trace s ++ d), Ok tt) /\
    schedules d =
      (if reconnectAttempts s <? 10
       then [Z.min 30000 (2 ^ reconnectAttempts s * 1000)] else []).
Proof.
  unfold handleDisconnection, stopUpdatePolling, maxReconnectAttempts, getS, modify,
    log, emit, mbind, M_bind, mret, M_ret.
  rewrite setConnected_run. red_m.
  destruct (Bool.eqb (connected s) false); rewrite ?add_events_eq;
    unfold set_connected_field, set_polling, set_timer, add_event; cbn;
    destruct (reconnectAttempts s <? 10); unfold modify; cbn; rewrite <- ?app_assoc;
    (eexists; split; [reflexivity|]);
    rewrite ?schedules_app; cbn; rewrite ?schedules_app, ?schedules_notify; reflexivity.
Qed.




(** With the server unreachable every request fails, after the retries. *)
Lemma attempt_offline r c ep b s :
  net s = [] -> exists s' e, attempt r c ep b s = (s', Exn e) /\ net s' = [].
Proof.
  revert c s. induction r as [|r IH]; intros c s Hn; cbn [attempt];
    unfold issue, mbind, M_bind, log, emit, modify, throw, retriable; red_m;
    (assert (Hn' : net (add_event (ERequest ep b) s) = []) by exact Hn);
    rewrite Hn'; red_m.
  - eexists _, _. split; [reflexivity | exact Hn].
  - apply IH. exact Hn.
Qed.

Lemma testConnection_offline s :
  net s = [] ->
  exists s1, quiet s s1 /\ net s1 = [] /\
             testConnection s = (fst (handleDisconnection s1), Ok false).
Proof.
  intros Hn. unfold testConnection, catch, mbind, M_bind.
  destruct (attempt_offline retry O "/getMe" BNone s Hn) as [s' [e [E N]]].
  pose proof (keeps_transport "/getMe" BNone s) as Hq.
  unfold transport in *. rewrite E in *. red_m.
  unfold log, emit, modify. red_m.
  exists (add_event (ELog LError ("Failed to connect to Telegram: " +:+ e)) s').
  split; [|split; [exact N|]].
  - eapply pre_trans; [exact Hq | apply quiet_event; exact I].
  - destruct (handleDisconnection_run
      (add_event (ELog LError ("Failed to connect to Telegram: " +:+ e)) s')) as [d [Eh _]].
    rewrite Eh. reflexivity.
Qed.

(** One expiry of the reconnect timer while the server is unreachable:
    the attempt counter goes up, the liveness check fails, and the next
    attempt is scheduled (or, at the limit, none). *)
Lemma fire_offline s :
  net s = [] -> truthy (token s) = true -> truthy (chatId s) = true ->
  reconnectTimer s <> None ->
  exists d,
    fire_pending s =
    (mkSt (token s) (chatId s) (lastUpdateId s) false (connectionListeners s)
          (commandHandlers s)
          (if reconnectAttempts s + 1 <? 10
           then Some (Z.min 30000 (2 ^ (reconnectAttempts s + 1) * 1000)) else None)
          (reconnectAttempts s + 1) false [] (trace s ++ d), Ok tt) /\
    schedules d =
      (if reconnectAttempts s + 1 <? 10
       then [Z.min 30000 (2 ^ (reconnectAttempts s + 1) * 1000)] else []).
Proof.
  intros Hn Ht Hc Htm. unfold fire_pending, getS, mbind, M_bind. red_m.
  destruct (reconnectTimer s) as [t0|] eqn:Et; [|congruence].
  unfold reconnect_fire, modify, getS, mbind, M_bind, mret, M_ret.
  unfold set_timer, set_attempts. red_m.
  cbn [token chatId lastUpdateId connected connectionListeners commandHandlers
       reconnectTimer reconnectAttempts isPolling net trace].
  rewrite Ht, Hc. red_m.
  match goal with |- context [testConnection ?x] => set (s1 := x) end.
  destruct (testConnection_offline s1 Hn) as [s2 [[Hcore [d0 [Htr [_ Hs0]]]] [Hn2 Et2]]].
  rewrite Et2. red_m.
  destruct (handleDisconnection_run s2) as [d [Eh Hs]]. rewrite Eh. red_m.
  destruct s2 as [tk2 ch2 lu2 co2 ls2 hs2 tm2 at2 po2 n2 tr2].
  unfold core in Hcore; cbn in *. injection Hcore; intros; subst.
  exists (d0 ++ d). rewrite app_assoc. split; [reflexivity|].
  rewrite schedules_app, Hs0, Hs. reflexivity.
Qed.

Lemma fire_times_S k s s' :
  fire_pending s = (s', Ok tt) -> fire_times (S k) s = fire_times k s'.
Proof. intros E. cbn [fire_times]. unfold mbind, M_bind. rewrite E. reflexivity. Qed.

(** With no timer pending, nothing happens any more. *)
Lemma fire_idle k s : reconnectTimer s = None -> fire_times k s = (s, Ok tt).
Proof.
  intros H. induction k as [|k IH]; [reflexivity|].
  apply (eq_trans (fire_times_S k s s ltac:(unfold fire_pending, getS, mbind, M_bind;
                                            red_m; rewrite H; reflexivity))).
  exact IH.
Qed.

(** [k] expiries in a row while the server is unreachable. *)
Lemma fire_chain k s :
  net s = [] -> truthy (token s) = true -> truthy (chatId s) = true ->
  connected s = false -> isPolling s = false ->
  0 <= reconnectAttempts s -> reconnectAttempts s + Z.of_nat k <= 10 ->
  reconnectTimer s = (if reconnectAttempts s <? 10
                      then Some (Z.min 30000 (2 ^ reconnectAttempts s * 1000)) else None) ->
  exists d,
    fire_times k s =
    (mkSt (token s) (chatId s) (lastUpdateId s) false (connectionListeners s)
          (commandHandlers s)
          (if reconnectAttempts s + Z.of_nat k <? 10
           then Some (Z.min 30000 (2 ^ (reconnectAttempts s + Z.of_nat k) * 1000)) else None)
          (reconnectAttempts s + Z.of_nat k) false [] (trace s ++ d), Ok tt) /\
    schedules d =
      flat_map (fun n => if n <? 10 then [Z.min 30000 (2 ^ n * 1000)] else [])
               (map (fun i => reconnectAttempts s + Z.of_nat i) (seq 1 k)).
Proof.
  revert s. induction k as [|k IH]; intros s Hn Ht Hc Hco Hpo H0 Hk Htm.
  - exists []. split; [|reflexivity].
    destruct s; cbn in *; subst. rewrite Z.add_0_r, app_nil_r. reflexivity.
  - assert (Hlt : (reconnectAttempts s <? 10) = true) by (apply Z.ltb_lt; lia).
    destruct (fire_offline s Hn Ht Hc ltac:(rewrite Htm, Hlt; discriminate))
      as [d1 [E1 S1]].
    rewrite (fire_times_S k s _ E1).
    match goal with |- context [fire_times k ?x] =>
      destruct (IH x) as [d2 [E2 S2]];
      [reflexivity | exact Ht | exact Hc | reflexivity | reflexivity
      | cbn; lia | cbn; lia | reflexivity |]
    end.
    rewrite E2. cbn [token chatId lastUpdateId connected connectionListeners
                     commandHandlers reconnectTimer reconnectAttempts isPolling net trace].
    exists (d1 ++ d2).
    replace (reconnectAttempts s + 1 + Z.of_nat k) with (reconnectAttempts s + Z.of_nat (S k))
      by lia.
    rewrite app_assoc. split; [reflexivity|].
    rewrite schedules_app, S1, S2. cbn [seq map flat_map].
    replace (reconnectAttempts s + Z.of_nat 1) with (reconnectAttempts s + 1) by lia.
    rewrite <- (seq_shift k 1), map_map. f_equal. f_equal.
    apply map_ext. intro i. cbn [reconnectAttempts]. lia.
Qed.

(** Claim C4 (amended): from a connected state whose server has become
    unreachable, with no failed attempt yet, the disconnection schedules
    attempt 1 and every failed attempt [n] schedules attempt [n + 1]: the
    delay before attempt [n] (n = 1..10) is [min(30000, 1000 * 2^(n-1))]
    ms (1000, 2000, 4000, 8000, 16000, then 30000).  After the 10th
    failed attempt the counter is at 10, no timer is pending, the state
    is Disconnected, and nothing happens any more. *)
Theorem reconnect_backoff (s : St)
    (Hn : net s = []) (Ha : reconnectAttempts s = 0)
    (Ht : truthy (token s) = true) (Hc : truthy (chatId s) = true) :
  let s' := fst ((handleDisconnection ;; fire_times 10) s) in
  schedules (trace s') =
    schedules (trace s) ++
    map (fun n => Z.min 30000 (1000 * 2 ^ (Z.of_nat n - 1))) (seq 1 10) /\
  reconnectAttempts s' = 10 /\ reconnectTimer s' = None /\ connected s' = false /\
  (forall k, fire_times k s' = (s', Ok tt)).
Proof.
  intros s'. subst s'. unfold mbind, M_bind.
  destruct (handleDisconnection_run s) as [d0 [E0 S0]]. rewrite E0. red_m.
  rewrite Ha in *.
  match goal with |- context [fire_times 10 ?x] =>
    destruct (fire_chain 10 x) as [d [E S]];
    [exact Hn | exact Ht | exact Hc | reflexivity | reflexivity
    | cbn; lia | cbn; lia | reflexivity |]
  end.
  rewrite E. cbn [fst token chatId lastUpdateId connected connectionListeners
                  commandHandlers reconnectTimer reconnectAttempts isPolling net trace].
  split; [|split; [reflexivity | split; [reflexivity | split; [reflexivity|]]]].
  - rewrite !schedules_app, S0, S, <- app_assoc. reflexivity.
  - intro k. apply fire_idle. reflexivity.
Qed.

(** Claim C4 (counterexample to "attempt n after min(30000, 1000 * 2^n)
    ms", which gives 2000, 4000, ...): the delays actually scheduled, from
    the first disconnection to the last attempt. *)
Lemma reconnect_delays_concrete :
  schedules (trace (fst ((handleDisconnection ;; fire_times 10) (connected_st 4 [])))) =
  [1000; 2000; 4000; 8000; 16000; 30000; 30000; 30000; 30000; 30000].
Proof. vm_compute. reflexivity. Qed.

(** ** initialize *)






Lemma requests_app l1 l2 : requests (l1 ++ l2) = requests l1 ++ requests l2.
Proof. apply flat_map_app. Qed.


Lemma waits_app l1 l2 : waits (l1 ++ l2) = waits l1 ++ waits l2.
Proof. apply flat_map_app. Qed.

(** [attempt] against a run of retriable failures [sts] followed by the
    answer [o] that ends it (a response, a failure that is not retried, or
    a failure once no retry is left). *)
Lemma attempt_run (sts : list (option Z)) o rest r c ep b s :
  Forall (fun st => retriable st = true) sts -> (length sts <= r)%nat ->
  match o with Resp _ => True | Fail st => retriable st = false \/ length sts = r end ->
  net s = map Fail sts ++ o :: rest ->
  exists s',
    attempt r c ep b s =
      (s', match o with Resp p => Ok p | Fail st => Exn (error_message st) end) /\
    net s' = rest /\ core s' = core s /\
    requests (trace s') = requests (trace s) ++ repeat (ep, b) (S (length sts)) /\
    waits (trace s') =
      waits (trace s) ++ map (fun k => 2 ^ Z.of_nat (c + k) * 1000) (seq 1 (length sts)).
Proof.
  revert r c s. induction sts as [|st sts IH]; intros r c s Hall Hlen Hend Hn.
  - destruct r as [|r]; cbn [attempt]; unfold issue, mbind, M_bind; red_m;
      (assert (Hn' : net (add_event (ERequest ep b) s) = o :: rest) by exact Hn);
      rewrite Hn'; red_m;
      destruct o as [p|st]; unfold mret, M_ret, log, emit, modify, throw, mbind, M_bind; red_m;
      try (destruct Hend as [Hr|Hr]; [rewrite Hr|]); red_m;
      try (cbn in Hr; discriminate);
      try (destruct (retriable st)); red_m;
      eexists; (split; [reflexivity|]); cbn;
      rewrite ?requests_app, ?waits_app; cbn; rewrite ?app_nil_r;
      (split; [reflexivity | split; [reflexivity | split; reflexivity]]).
  - destruct r as [|r]; [cbn in Hlen; lia|].
    inversion Hall as [|? ? Hst Hall']; subst.
    cbn [attempt]. unfold issue, mbind, M_bind. red_m.
    assert (Hn' : net (add_event (ERequest ep b) s) = Fail st :: (map Fail sts ++ o :: rest))
      by exact Hn.
    rewrite Hn'. red_m. rewrite Hst. red_m. unfold log, emit, modify. red_m.
    match goal with |- context [attempt r (S c) ep b ?x] =>
      destruct (IH r (S c) x Hall' ltac:(cbn in Hlen; lia)
                  ltac:(destruct o as [|st0]; [exact I | cbn in Hend;
                        destruct Hend; [left; assumption | right; lia]])
                  eq_refl) as [s' [E [N [C [R W]]]]]
    end.
    rewrite E. exists s'. split; [reflexivity|]. split; [exact N|].
    split; [rewrite C; reflexivity|].
    rewrite R, W. unfold add_event, set_net. cbn [trace].
    rewrite !requests_app, !waits_app. cbn -[Z.pow Z.of_nat].
    split.
    + rewrite <- !app_assoc. reflexivity.
    + rewrite !app_nil_r, <- app_assoc. cbn [app]. f_equal.
      replace (c + 1)%nat with (S c) by lia. f_equal.
      rewrite <- (seq_shift _ 1), map_map. apply map_ext. intro k.
      replace (S (c + k)) with (c + S k)%nat by lia. reflexivity.
Qed.





(** ** Transport retries and how the callers take a rejection *)

(** Claim C8 (amended): a request that fails with a network error, a 5xx
    or a 429 is re-sent, at most 3 times, after 2000, 4000 and 8000 ms
    ([2^k * 1000] before the k-th retry); the answer that ends it (a
    response, another failure, or a failure with no retry left) is what
    the caller gets: for a failure, a rejection carrying axios's message
    (["Network Error"], or ["Request failed with status code <status>"]).
    [getUpdates] and [testConnection] ([getMe]) take a rejection as a connection loss and
    run [handleDisconnection]; [sendMessage] returns [false] and leaves
    the connection state, the interval and the reconnect timer alone. *)
Theorem transport_retry_and_callers :
  (forall ep b s sts o rest,
     Forall (fun st => retriable st = true) sts -> (length sts <= 3)%nat ->
     match o with Resp _ => True | Fail st => retriable st = false \/ length sts = 3%nat end ->
     net s = map Fail sts ++ o :: rest ->
     exists s',
       transport ep b s =
         (s', match o with Resp p => Ok p | Fail st => Exn (error_message st) end) /\
       net s' = rest /\ core s' = core s /\
       requests (trace s') = requests (trace s) ++ repeat (ep, b) (S (length sts)) /\
       waits (trace s') =
         waits (trace s) ++ map (fun k => 2 ^ Z.of_nat k * 1000) (seq 1 (length sts))) /\
  (forall s e s1,
     connected s = true ->
     transport "/getUpdates" (BOffset (lastUpdateId s + 1)) s = (s1, Exn e) ->
     getUpdates s =
       (fst (handleDisconnection (add_event (ELog LError ("Failed to get updates: " +:+ e)) s1)),
        Ok []) /\
     connected (fst (getUpdates s)) = false) /\
  (forall s e s1,
     transport "/getMe" BNone s = (s1, Exn e) ->
     testConnection s =
       (fst (handleDisconnection
               (add_event (ELog LError ("Failed to connect to Telegram: " +:+ e)) s1)),
        Ok false) /\
     connected (fst (testConnection s)) = false) /\
  (forall s text e s1,
     connected s = true ->
     transport "/sendMessage" (BText text) s = (s1, Exn e) ->
     sendMessage text s = (add_event (ELog LError ("Failed to send message: " +:+ e)) s1, Ok false) /\
     core (fst (sendMessage text s)) = core s).
Proof.
  split; [|split; [|split]].
  - intros ep b s sts o rest Hall Hlen Hend Hn.
    exact (attempt_run sts o rest retry O ep b s Hall Hlen Hend Hn).
  - intros s e s1 Hc Ht.
    assert (E : getUpdates s =
      (fst (handleDisconnection (add_event (ELog LError ("Failed to get updates: " +:+ e)) s1)),
       Ok [])).
    { unfold getUpdates, getS, catch, mbind, M_bind. red_m. rewrite Hc. red_m. rewrite Ht. red_m.
      unfold getUpdates_failed, log, emit, modify, mbind, M_bind, mret, M_ret. red_m.
      match goal with |- context [handleDisconnection ?x] =>
        destruct (handleDisconnection_run x) as [d [Eh _]]; rewrite Eh; reflexivity end. }
    split; [exact E|]. rewrite E.
    match goal with |- context [handleDisconnection ?x] =>
      destruct (handleDisconnection_run x) as [d [Eh _]]; rewrite Eh; reflexivity end.
  - intros s e s1 Ht.
    assert (E : testConnection s =
      (fst (handleDisconnection
              (add_event (ELog LError ("Failed to connect to Telegram: " +:+ e)) s1)),
       Ok false)).
    { unfold testConnection, catch, mbind, M_bind. rewrite Ht. red_m.
      unfold log, emit, modify, mbind, M_bind, mret, M_ret. red_m.
      match goal with |- context [handleDisconnection ?x] =>
        destruct (handleDisconnection_run x) as [d [Eh _]]; rewrite Eh; reflexivity end. }
    split; [exact E|]. rewrite E.
    match goal with |- context [handleDisconnection ?x] =>
      destruct (handleDisconnection_run x) as [d [Eh _]]; rewrite Eh; reflexivity end.
  - intros s text e s1 Hc Ht.
    assert (E : sendMessage text s =
                (add_event (ELog LError ("Failed to send message: " +:+ e)) s1, Ok false)).
    { unfold sendMessage, getS, catch, mbind, M_bind. red_m. rewrite Hc. red_m. rewrite Ht. red_m.
      reflexivity. }
    split; [exact E|]. rewrite E. cbn [fst].
    pose proof (keeps_transport "/sendMessage" (BText text) s) as [Hcore _].
    rewrite Ht in Hcore. exact Hcore.
Qed.

(** Claim C8 (counterexample to "the caller treats it as a connection
    loss"): a connected [sendMessage] with the server unreachable retries
    three times, returns [false], and leaves the instance Connected, the
    interval armed and no reconnect scheduled. *)
Lemma sendMessage_failure_keeps_connection :
  let r := sendMessage "hi" (connected_st 4 []) in
  snd r = Ok false /\ connected (fst r) = true /\ isPolling (fst r) = true /\
  reconnectTimer (fst r) = None /\ schedules (trace (fst r)) = [] /\
  waits (trace (fst r)) = [2000; 4000; 8000].
Proof. vm_compute. repeat split. Qed.


(** ** Overlapping interval ticks *)

(** Without overlap, a tick is its synchronous part ([sys_tick]: the
    [getUpdates] request) followed by the rest of the callback once the
    answer is in ([cycle_resume]). *)
Lemma poll_tick_split s p rest :
  connected s = true -> net s = Resp p :: rest ->
  poll_tick s = cycle_resume p (set_net rest (api_st (sys_tick (mkSys s [])))).
Proof.
  intros Hc Hn. unfold poll_tick, getUpdates, cycle_resume, sys_tick, getS, catch, mbind, M_bind.
  red_m. repeat (rewrite Hc; red_m).
  rewrite (transport_first_ok _ _ _ _ rest Hn). red_m.
  cbn [api_st in_flight]. rewrite Hc. red_m. reflexivity.
Qed.

(** Claim C1 (code bug): the interval callback has no reentrancy guard
    ([isPolling] only keeps the interval from being armed twice).  When
    the answer to a tick's [getUpdates] is slower than 3000 ms, the next
    tick runs anyway: it sends [getUpdates] with the same offset, and
    when both answers arrive the same update is dispatched twice. *)
Theorem overlapping_ticks_duplicate :
  let y0 := mkSys (connected_st 4 [Resp PNone; Resp PNone]) [] in
  let y2 := sys_tick (sys_tick y0) in
  let y4 := sys_resolve (PUpdates [upd_storage]) (sys_resolve (PUpdates [upd_storage]) y2) in
  in_flight y2 = [5; 5] /\
  requests (trace (api_st y2)) = [("/getUpdates", BOffset 5); ("/getUpdates", BOffset 5)] /\
  invocations (trace (api_st y4)) = [("storage", ACb cb_storage); ("storage", ACb cb_storage)].
Proof. vm_compute. repeat split. Qed.

(** Claim C3: an instance of the drop of a foreign-chat message. *)
Lemma processUpdate_unauthorized_witness :
  exists w,
    processUpdate (mkUpdate 9 (Some (intruder_msg (Some "/storage"))) None) (connected_st 4 []) =
    (add_event (ELog LWarning w) (connected_st 4 []), Ok tt).
Proof.
  apply (processUpdate_unauthorized _ _ "42"); [reflexivity|].
  left. eexists. split; [reflexivity | discriminate].
Defined.



(** Claim C8: a network error, a 503 and a 429 are retried after 2000,
    4000 and 8000 ms; the 500 that follows, with no retry left, is the
    rejection [getUpdates] gets. *)
Lemma transport_retry_witness :
  exists s',
    transport "/getUpdates" (BOffset 5)
      (connected_st 4 [Fail None; Fail (Some 503); Fail (Some 429); Fail (Some 500); Resp PNone]) =
      (s', Exn "Request failed with status code 500") /\
    net s' = [Resp PNone] /\
    waits (trace s') = [2000; 4000; 8000].
Proof.
  destruct transport_retry_and_callers as [H _].
  destruct (H "/getUpdates" (BOffset 5)
              (connected_st 4 [Fail None; Fail (Some 503); Fail (Some 429); Fail (Some 500); Resp PNone])
              [None; Some 503; Some 429] (Fail (Some 500)) [Resp PNone]
              ltac:(repeat constructor) ltac:(cbn; lia) (or_intror eq_refl) eq_refl)
    as [s' [E [N [_ [_ W]]]]].
  exists s'. split; [rewrite E; reflexivity|]. split; [exact N|].
  rewrite W. reflexivity.
Defined.

(** Claim C4: the chain from [connected_st 4 []] ends with the attempt
    counter at 10. *)
Lemma reconnect_backoff_witness :
  reconnectAttempts (fst ((handleDisconnection ;; fire_times 10) (connected_st 4 []))) = 10.
Proof.
  pose proof (reconnect_backoff (connected_st 4 []) eq_refl eq_refl eq_refl eq_refl) as H.
  cbv zeta in H. destruct H as [_ [H _]]. exact H.
Defined.

(** ** Further properties of the API *)

Lemma js_split_no_sep c s : includes c s = false -> js_split c s = [s].
Proof.
  induction s as [|x r IH]; simpl; [reflexivity|].
  intros H. apply orb_false_iff in H as [Hx Hr]. rewrite Hx, (IH Hr). reflexivity.
Qed.

Lemma last_cons_cons {A} (a b : A) l : last (a :: b :: l) = last (b :: l).
Proof. reflexivity. Qed.

Lemma js_split_basename c s :
  includes c (default "" (last (js_split c s))) = false /\
  exists dir, s = dir +:+ default "" (last (js_split c s)) /\
              (dir = "" \/ exists d', dir = d' +:+ String c "").
Proof.
  induction s as [|x r [IHn [dir [IHs IHd]]]]; [split; [reflexivity | exists ""; auto]|].
  destruct (js_split_cons c r) as [p [ps E]]. rewrite E in *.
  cbn [js_split]. rewrite E.
  destruct (Ascii.eqb x c) eqn:Ex.
  - apply Ascii.eqb_eq in Ex; subst x. rewrite last_cons_cons. split; [exact IHn|].
    exists (String c dir). split; [rewrite IHs at 1; reflexivity|].
    right. destruct IHd as [-> | [d' ->]].
    + exists "". reflexivity.
    + exists (String c d'). reflexivity.
  - destruct ps as [|q qs].
    + pose proof (js_join_split c r) as J. rewrite E in J. cbn in J. subst p.
      cbn in IHn |- *. rewrite Ex. split; [exact IHn|].
      exists "". split; [reflexivity | left; reflexivity].
    + rewrite last_cons_cons. rewrite last_cons_cons in IHn, IHs. split; [exact IHn|].
      destruct IHd as [-> | [d' ->]].
      * change ("" +:+ ?y) with y in IHs. rewrite <- IHs in IHn.
        rewrite (js_split_no_sep c r IHn) in E. discriminate.
      * exists (String x (d' +:+ String c "")).
        split; [rewrite IHs at 1; reflexivity|].
        right. exists (String x d'). reflexivity.
Qed.

Lemma lower_char_idem c : lower_char (lower_char c) = lower_char c.
Proof. destruct c as [[] [] [] [] [] [] [] []]; reflexivity. Qed.

Lemma toLowerCase_idem s : toLowerCase (toLowerCase s) = toLowerCase s.
Proof. induction s as [|x r IH]; simpl; [reflexivity|]. rewrite lower_char_idem, IH. reflexivity. Qed.

(** Extra X20: [sendFile] uploads the file under the part of [filePath] after its
    last [/]: that name contains no [/], and [filePath] is it preceded by
    nothing or by a directory part ending in [/]. *)
Theorem document_name_basename (filePath : string) :
  includes "/"%char (document_name filePath) = false /\
  exists dir, filePath = dir +:+ document_name filePath /\
              (dir = "" \/ exists d', dir = d' +:+ "/").
Proof. apply js_split_basename. Qed.

(** Extra X14: A message reaches only lowercase keys: every handler [handle_message]
    invokes is registered under ["message"] or under a key that
    [toLowerCase] leaves unchanged, so a handler registered under a key
    with a capital letter is never run by a text message. *)
Theorem message_keys_lowercase (m : Message) (s : St) :
  exists l, invocations (trace (fst (handle_message m s))) = invocations (trace s) ++ l /\
    Forall (fun ka => fst ka = "message" \/ toLowerCase (fst ka) = fst ka) l.
Proof.
  unfold handle_message, log, emit, modify, getS, mbind, M_bind, mret, M_ret.
  destruct (msg_text m) as [t|]; red_m; [|exists []; rewrite app_nil_r; auto].
  destruct (String.eqb t ""); red_m; [exists []; rewrite app_nil_r; auto|].
  set (s1 := add_event _ s).
  assert (I1 : invocations (trace s1) = invocations (trace s))
    by (subst s1; rewrite trace_add_event, invocations_app, app_nil_r; reflexivity).
  destruct (startsWith_slash t); red_m.
  - destruct (commandHandlers s1 !! _) as [h|]; red_m.
    + eexists. rewrite invoke_invocations, trace_add_event, invocations_app, I1, app_nil_r.
      split; [reflexivity|]. constructor; [right; apply toLowerCase_idem | constructor].
    + match goal with |- context [sendMessage ?x ?y] =>
        pose proof (quiet_invocations _ _ (keeps_sendMessage x y)) as Q;
        destruct (sendMessage x y) as [s2 [b|e]] end;
      cbn [fst] in Q |- *; rewrite Q, trace_add_event, invocations_app, I1, app_nil_r;
      exists []; rewrite app_nil_r; auto.
  - destruct (commandHandlers s1 !! "message") as [h|]; red_m.
    + eexists. rewrite invoke_invocations, I1. split; [reflexivity|].
      constructor; [left; reflexivity | constructor].
    + exists []. rewrite I1, app_nil_r. auto.
Qed.

(** Extra X1: Disconnected, the senders and the poll callback do nothing:
    [getUpdates] returns [[]], [sendMessage] and [sendDeviceInfo] return
    [false], the interval callback skips its cycle; no request is sent and
    the state is left as it was. *)
Theorem senders_disconnected (s : St) (t : string) (d : DeviceInfo)
    (Hc : connected s = false) :
  getUpdates s = (s, Ok []) /\ sendMessage t s = (s, Ok false) /\
  sendDeviceInfo d s = (s, Ok false) /\ poll_tick s = (s, Ok tt).
Proof.
  unfold getUpdates, sendMessage, sendDeviceInfo, poll_tick, getS, mbind, M_bind,
    mret, M_ret.
  red_m. rewrite Hc. red_m. repeat split.
Qed.

(** Extra X2: A connected [getUpdates] whose answer carries no update (an empty
    array, or no array: [response.data.result || []]) sends one request
    with offset [lastUpdateId + 1], returns [[]] and leaves the cursor and
    every other field unchanged. *)
Theorem getUpdates_no_updates (s : St) (p : Payload) (rest : list Outcome)
    (Hc : connected s = true) (Hn : net s = Resp p :: rest) (Hp : updates_of p = []) :
  getUpdates s =
    (set_net rest (add_event (ERequest "/getUpdates" (BOffset (lastUpdateId s + 1))) s),
     Ok []).
Proof.
  unfold getUpdates, getS, mbind, M_bind. red_m. rewrite Hc. red_m.
  unfold catch. rewrite (transport_first_ok _ _ _ p rest) by exact Hn.
  unfold getUpdates_k. rewrite Hp. reflexivity.
Qed.

(** Extra X3: A connected [getUpdates] answered with a batch whose last element is
    [u] returns the batch as received and sets the cursor to
    [update_id u], with no comparison to the cursor it had: an answer
    whose last id is below the cursor moves the cursor back. *)
Theorem getUpdates_cursor_from_last (s : St) (batch : list Update) (u : Update)
    (rest : list Outcome)
    (Hc : connected s = true) (Hn : net s = Resp (PUpdates batch) :: rest)
    (Hl : last batch = Some u) :
  getUpdates s =
    (set_lastUpdateId (update_id u)
       (set_net rest (add_event (ERequest "/getUpdates" (BOffset (lastUpdateId s + 1))) s)),
     Ok batch).
Proof.
  unfold getUpdates, getS, mbind, M_bind. red_m. rewrite Hc. red_m.
  unfold catch. rewrite (transport_first_ok _ _ _ _ rest) by exact Hn.
  unfold getUpdates_k, modify, mbind, M_bind, mret, M_ret. cbn [updates_of].
  rewrite Hl. reflexivity.
Qed.

(** Extra X4: A [getMe] answer that is not a bot with an [id] makes
    [testConnection] return [false] without treating it as a connection
    loss: one request, no disconnection, no reconnect, the attempt
    counter kept. *)
Theorem testConnection_not_bot (s : St) (p : Payload) (rest : list Outcome)
    (Hn : net s = Resp p :: rest) (Hp : p <> PBot true) :
  testConnection s = (set_net rest (add_event (ERequest "/getMe" BNone) s), Ok false).
Proof.
  unfold testConnection, catch, mbind, M_bind.
  rewrite (transport_first_ok _ _ _ p rest) by exact Hn.
  destruct p as [l|[]|]; [reflexivity | contradiction | reflexivity | reflexivity].
Qed.

(** Extra X5: A successful [getMe] makes [testConnection] return [true] and reset
    the attempt counter to 0; it does not itself set [connected], start
    polling or touch the reconnect timer. *)
Theorem testConnection_success (s : St) (rest : list Outcome)
    (Hn : net s = Resp (PBot true) :: rest) :
  testConnection s =
    (set_attempts 0
       (add_event (ELog LSuccess "Connected to Telegram bot")
          (set_net rest (add_event (ERequest "/getMe" BNone) s))),
     Ok true).
Proof.
  unfold testConnection, catch, mbind, M_bind.
  rewrite (transport_first_ok _ _ _ _ rest) by exact Hn. reflexivity.
Qed.

(** Extra X6: Calling [handleDisconnection] a second time does not advance the
    back-off: the state afterwards is the one the first call left (one
    pending reconnect, same attempt counter), and the second call
    schedules the same delay again in place of the cleared timer. *)
Theorem handleDisconnection_twice (s : St) :
  let s1 := fst (handleDisconnection s) in
  let s2 := fst (handleDisconnection s1) in
  core s2 = core s1 /\
  exists d, trace s2 = trace s1 ++ d /\
    schedules d = (if reconnectAttempts s <? 10
                   then [Z.min 30000 (2 ^ reconnectAttempts s * 1000)] else []).
Proof.
  cbv zeta. destruct (handleDisconnection_run s) as [d1 [E1 _]]. rewrite E1. cbn [fst].
  match goal with |- context [handleDisconnection ?x] =>
    destruct (handleDisconnection_run x) as [d2 [E2 S2]]; rewrite E2 end.
  cbn [fst] in *. split; [reflexivity|]. exists d2. split; [reflexivity | exact S2].
Qed.

(** Extra X7: Once [reconnectAttempts] has reached [maxReconnectAttempts],
    [handleDisconnection] disconnects and stops polling but schedules
    nothing and leaves no reconnect pending, so no number of timer
    expiries afterwards changes anything. *)
Theorem handleDisconnection_exhausted (s : St) (k : nat)
    (Ha : 10 <= reconnectAttempts s) :
  let s1 := fst (handleDisconnection s) in
  connected s1 = false /\ isPolling s1 = false /\ reconnectTimer s1 = None /\
  (exists d, trace s1 = trace s ++ d /\ schedules d = []) /\
  fire_times k s1 = (s1, Ok tt).
Proof.
  cbv zeta. destruct (handleDisconnection_run s) as [d [E S]]. rewrite E. cbn [fst].
  assert (Hlt : (reconnectAttempts s <? 10) = false) by (apply Z.ltb_ge; exact Ha).
  rewrite Hlt in *. split; [reflexivity|]. split; [reflexivity|]. split; [reflexivity|].
  split; [exists d; split; [reflexivity | exact S]|].
  apply fire_idle. reflexivity.
Qed.

(** Extra X8: When the reconnect timer fires with a falsy token or chat id, the
    callback only clears the pending timer and increments the counter:
    no request is sent and nothing new is scheduled, so later expiries do
    nothing and the reconnect chain ends there. *)
Theorem reconnect_without_credentials (s : St) (k : nat) (t : Z)
    (Ht : reconnectTimer s = Some t)
    (Hcred : truthy (token s) && truthy (chatId s) = false) :
  fire_times (S k) s =
    (set_attempts (reconnectAttempts s + 1) (set_timer None s), Ok tt).
Proof.
  cbn [fire_times]. unfold fire_pending, reconnect_fire, getS, modify, mbind, M_bind,
    mret, M_ret.
  red_m. rewrite Ht. red_m.
  cbn [token chatId reconnectAttempts set_timer]. rewrite Hcred. red_m.
  apply fire_idle. reflexivity.
Qed.

Lemma sendMessage_ok t s : exists b, sendMessage t s = (fst (sendMessage t s), Ok b).
Proof.
  unfold sendMessage, getS, catch, mbind, M_bind, mret, M_ret, log, emit, modify. red_m.
  destruct (connected s); red_m; [|eauto].
  destruct (transport _ _ s) as [s1 [a|e]]; red_m; eauto.
Qed.

(** Extra X19: Connected and with its message built, [sendDeviceInfo] sends the
    device message and then the menu ["Choose an option:"], and returns
    [true] whatever the server answers: [sendMessage] reports a failed
    send as [false], which is not checked. The connection state is not
    changed. *)
Theorem sendDeviceInfo_ignores_delivery (s : St) (text : string)
    (Hc : connected s = true) :
  let s' := fst (sendDeviceInfo (Some (inl text)) s) in
  snd (sendDeviceInfo (Some (inl text)) s) = Ok true /\ core s' = core s /\
  exists r1 r2, requests (trace s') =
    requests (trace s) ++ ("/sendMessage", BText text) :: r1 ++
    ("/sendMessage", BText "Choose an option:") :: r2.
Proof.
  cbv zeta. unfold sendDeviceInfo, getS, catch, mbind, M_bind, mret, M_ret. red_m.
  rewrite Hc. red_m.
  destruct (sendMessage_ok text s) as [b1 E1]. rewrite E1. red_m.
  set (s1 := fst (sendMessage text s)).
  destruct (keeps_sendMessage text s) as [C1 _]. fold s1 in C1.
  assert (Hc1 : connected s1 = true) by (pose proof (core_eq_fields s s1 C1); intuition congruence).
  destruct (sendMessage_ok "Choose an option:" s1) as [b2 E2]. rewrite E2. red_m.
  destruct (keeps_sendMessage "Choose an option:" s1) as [C2 _].
  split; [reflexivity|]. split; [congruence|].
  destruct (sendMessage_trace text s Hc) as [d1 T1]. fold s1 in T1.
  destruct (sendMessage_trace "Choose an option:" s1 Hc1) as [d2 T2].
  exists (requests d1), (requests d2).
  rewrite T2, T1, !requests_app, <- app_assoc. reflexivity.
Qed.

Lemma notifications_app l1 l2 :
  notifications (l1 ++ l2) = notifications l1 ++ notifications l2.
Proof. apply flat_map_app. Qed.

Lemma notifications_notify (b : bool) ls :
  notifications (map (fun l => ENotify l b) ls) = map (fun l => (l, b)) ls.
Proof. induction ls as [|l r IH]; simpl; [reflexivity | rewrite IH; reflexivity]. Qed.

Lemma setConnected_change_trace b s :
  connected s <> b ->
  setConnected b s =
  (mkSt (token s) (chatId s) (lastUpdateId s) b (connectionListeners s)
       (commandHandlers s) (reconnectTimer s) (reconnectAttempts s) (isPolling s)
       (net s)
       (trace s ++ ELog LInfo (if b then "Telegram connection status: Connected"
                                else "Telegram connection status: Disconnected")
                   :: map (fun l => ENotify l b) (connectionListeners s)), Ok tt).
Proof.
  intros Hb. rewrite setConnected_run.
  destruct (Bool.eqb (connected s) b) eqn:E; [apply Bool.eqb_prop in E; contradiction|].
  rewrite add_events_eq. reflexivity.
Qed.

(** Extra X9: A change of the connection status calls every registered listener
    exactly once, in registration order, with the new status. *)
Theorem setConnected_notifies_once (s : St) (b : bool) (Hb : connected s <> b) :
  let s' := fst (setConnected b s) in
  connected s' = b /\ connectionListeners s' = connectionListeners s /\
  notifications (trace s') =
    notifications (trace s) ++ map (fun l => (l, b)) (connectionListeners s).
Proof.
  cbv zeta. rewrite (setConnected_change_trace b s Hb). cbn [fst connected connectionListeners trace].
  split; [reflexivity|]. split; [reflexivity|].
  rewrite notifications_app. cbn [notifications flat_map app].
  change (flat_map _ (map (fun l => ENotify l b) (connectionListeners s)))
    with (notifications (map (fun l => ENotify l b) (connectionListeners s))).
  rewrite notifications_notify. reflexivity.
Qed.

(** Extra X10: Setting the same status twice in a row has the effect of setting it
    once: the second call notifies nobody. *)
Theorem setConnected_twice (b : bool) (s : St) :
  (setConnected b ;; setConnected b) s = setConnected b s.
Proof.
  assert (Same : forall x, connected x = b -> set_connected_field b x = x)
    by (intros [] H; cbn in H; subst; reflexivity).
  unfold mbind at 1, M_bind at 1. destruct (setConnected b s) as [s1 r] eqn:E.
  rewrite setConnected_run in E. injection E as E1 <-.
  assert (Hc : connected s1 = b).
  { subst s1. destruct (Bool.eqb (connected s) b); [reflexivity|].
    rewrite add_events_eq. reflexivity. }
  rewrite setConnected_run, Hc, Bool.eqb_reflx, Same by exact Hc. reflexivity.
Qed.

(** Extra X11: [addConnectionListener(l)] appends [l] and calls it at once with the
    current status, even though the status did not change; a later change
    then notifies the earlier listeners and [l] last. *)
Theorem addConnectionListener_then_change (s : St) (l : nat) (b : bool)
    (Hb : connected s <> b) :
  let s' := fst ((addConnectionListener l ;; setConnected b) s) in
  connectionListeners s' = connectionListeners s ++ [l] /\
  notifications (trace s') =
    notifications (trace s) ++ (l, connected s) ::
      map (fun x => (x, b)) (connectionListeners s ++ [l]).
Proof.
  cbv zeta. unfold addConnectionListener, emit, modify, getS, mbind, M_bind. red_m.
  rewrite (setConnected_change_trace b) by exact Hb.
  cbn [fst connectionListeners trace set_listeners add_event]. split; [reflexivity|].
  rewrite !notifications_app. cbn [notifications flat_map app].
  change (flat_map _ (map (fun x => ENotify x b) (connectionListeners s ++ [l])))
    with (notifications (map (fun x => ENotify x b) (connectionListeners s ++ [l]))).
  rewrite notifications_notify, <- app_assoc. reflexivity.
Qed.

(** Extra X12: After [removeConnectionListener(l)], [l] is no longer registered
    (every copy of it is removed), and the next status change does not
    call it. *)
Theorem removeConnectionListener_silences (s : St) (l : nat) (b : bool) :
  let s' := fst ((removeConnectionListener l ;; setConnected b) s) in
  ~ In l (connectionListeners s') /\
  exists n, notifications (trace s') = notifications (trace s) ++ n /\
            ~ In l (map fst n).
Proof.
  cbv zeta. unfold removeConnectionListener, modify, mbind, M_bind. red_m.
  set (s1 := set_listeners _ s).
  assert (Hl : ~ In l (connectionListeners s1)).
  { subst s1. cbn [connectionListeners set_listeners]. rewrite filter_In.
    rewrite Nat.eqb_refl. intros [_ H]. discriminate. }
  rewrite setConnected_run. destruct (Bool.eqb (connected s1) b).
  - cbn [fst]. split; [exact Hl|]. exists []. rewrite app_nil_r. split; [reflexivity | intros []].
  - cbn [fst]. rewrite add_events_eq. cbn [connectionListeners trace].
    split; [exact Hl|].
    exists (map (fun x => (x, b)) (connectionListeners s1)).
    rewrite notifications_app. cbn [notifications flat_map app].
    change (flat_map _ (map (fun x => ENotify x b) (connectionListeners s1)))
      with (notifications (map (fun x => ENotify x b) (connectionListeners s1))).
    rewrite notifications_notify. split; [reflexivity|].
    rewrite map_map. cbn. rewrite map_id. exact Hl.
Qed.

(** Extra X13: After [registerCommandHandler(k, h)], an (acknowledged) callback with
    data [k] runs [h]: exactly one invocation, of key [k] with the
    callback query, and it is [h]'s outcome that [handle_callback]
    returns, whatever was registered under [k] before. *)
Theorem registered_handler_runs (s : St) (k : string) (h : Handler)
    (cb : CallbackQuery) (p : Payload) (rest : list Outcome)
    (Hd : cb_data cb = k) (Hn : net s = Resp p :: rest) :
  let r := (registerCommandHandler k h ;; handle_callback cb) s in
  invocations (trace (fst r)) = invocations (trace s) ++ [(k, ACb cb)] /\
  snd r = match h (ACb cb) with None => Ok tt | Some e => Exn e end.
Proof.
  cbv zeta. unfold registerCommandHandler, handle_callback, log, emit, modify, getS,
    mbind, M_bind, mret, M_ret. red_m.
  rewrite (transport_first_ok _ _ _ p rest) by exact Hn. red_m.
  cbn [commandHandlers set_net add_event set_handlers]. rewrite Hd, lookup_insert.
  rewrite decide_True by reflexivity. split.
  - rewrite invoke_invocations. cbn [trace set_net add_event set_handlers].
    rewrite !invocations_app. cbn. rewrite !app_nil_r. reflexivity.
  - unfold invoke, emit, modify, mbind, M_bind. red_m.
    destruct (h (ACb cb)); reflexivity.
Qed.

(** Extra X15: A connected, authorized text command [/cmd ...] in ASCII
    whose lowercased [cmd] has no handler, and is not a member every
    object inherits (such as [constructor], which JS would find and call),
    runs no handler and replies ["Unknown command: /cmd"] followed by the
    [/help] hint; the connection state is not changed. *)
Theorem unknown_command_reply (m : Message) (t : string) (s : St)
    (Ht : msg_text m = Some t) (Hslash : startsWith_slash t = true)
    (Hc : connected s = true) (Hascii : ascii_text t = true)
    (Hnone : commandHandlers s !! toLowerCase (hd "" (js_split " "%char (substring1 t))) = None)
    (Hown : inherited_key (toLowerCase (hd "" (js_split " "%char (substring1 t)))) = false) :
  let cmd := toLowerCase (hd "" (js_split " "%char (substring1 t))) in
  let s' := fst (handle_message m s) in
  invocations (trace s') = invocations (trace s) /\ core s' = core s /\
  exists r, requests (trace s') = requests (trace s) ++
    ("/sendMessage", BText ("Unknown command: /" +:+ cmd +:+ newline +:+
                            "Type /help for available commands.")) :: r.
Proof.
  cbv zeta. unfold handle_message, log, emit, modify, getS, mbind, M_bind, mret, M_ret.
  rewrite Ht. red_m.
  assert (He : String.eqb t "" = false) by (destruct t; [discriminate | reflexivity]).
  rewrite He, Hslash. red_m.
  cbn [commandHandlers add_event]. rewrite Hnone. red_m.
  match goal with |- context [sendMessage ?x ?y] =>
    pose proof (keeps_sendMessage x y) as Q;
    assert (Hcy : connected y = true) by exact Hc;
    destruct (sendMessage_trace x y Hcy) as [d T];
    destruct (sendMessage x y) as [s2 [b|e]] end;
  cbn [fst] in Q, T |- *;
  (split; [rewrite (quiet_invocations _ _ Q), !trace_add_event, !invocations_app;
           cbn; rewrite !app_nil_r; reflexivity|]);
  (split; [destruct Q as [C _]; exact C|]);
  exists (requests d); rewrite T, !requests_app, !trace_add_event, !requests_app;
  cbn; rewrite !app_nil_r; reflexivity.
Qed.

(** Extra X16: An acknowledged callback whose data has no handler runs no handler,
    for data (and, with [_], a part before the first [_]) that is not a
    member every object inherits, such as [toString], which JS would find
    and call.  Without [_] in the data the bot replies
    ["Command not implemented: d"] after the acknowledgement; with [_] and
    no handler for the part before it, the acknowledgement is the only
    request: the sender gets no reply. *)
Theorem callback_unhandled (cb : CallbackQuery) (s : St) (p : Payload)
    (rest : list Outcome)
    (Hn : net s = Resp p :: rest) (Hc : connected s = true)
    (Hnone : commandHandlers s !! cb_data cb = None)
    (Hpre : includes "_"%char (cb_data cb) = true ->
            commandHandlers s !! hd "" (js_split "_"%char (cb_data cb)) = None)
    (Hown : inherited_key (cb_data cb) = false)
    (Hown_pre : includes "_"%char (cb_data cb) = true ->
                inherited_key (hd "" (js_split "_"%char (cb_data cb))) = false) :
  let s' := fst (handle_callback cb s) in
  invocations (trace s') = invocations (trace s) /\ core s' = core s /\
  exists r, requests (trace s') = requests (trace s) ++
    ("/answerCallbackQuery", BCallback (cb_id cb)) ::
    (if includes "_"%char (cb_data cb) then []
     else ("/sendMessage", BText ("Command not implemented: " +:+ cb_data cb)) :: r).
Proof.
  cbv zeta. unfold handle_callback, log, emit, modify, getS, mbind, M_bind, mret, M_ret.
  red_m. rewrite (transport_first_ok _ _ _ p rest) by exact Hn. red_m.
  cbn [commandHandlers set_net add_event]. rewrite Hnone.
  destruct (includes "_"%char (cb_data cb)); red_m.
  - rewrite (Hpre eq_refl). red_m.
    split; [cbn [trace set_net add_event]; rewrite !invocations_app; cbn;
            rewrite !app_nil_r; reflexivity|].
    split; [reflexivity|].
    exists []. cbn [trace set_net add_event]. rewrite !requests_app. cbn.
    rewrite !app_nil_r. reflexivity.
  - match goal with |- context [sendMessage ?x ?y] =>
      pose proof (keeps_sendMessage x y) as Q;
      assert (Hcy : connected y = true) by exact Hc;
      destruct (sendMessage_trace x y Hcy) as [d T];
      destruct (sendMessage x y) as [s2 [b|e]] end;
    cbn [fst] in Q, T |- *;
    (split; [rewrite (quiet_invocations _ _ Q); cbn [trace set_net add_event];
             rewrite !invocations_app; cbn; rewrite !app_nil_r; reflexivity|]);
    (split; [destruct Q as [C _]; exact C|]);
    exists (requests d); rewrite T; cbn [trace set_net add_event];
    rewrite !requests_app; cbn; rewrite !app_nil_r, <- !app_assoc; reflexivity.
Qed.

(** Extra X17: If the acknowledgement of an authorized callback fails for good (a
    non-retriable status), [processUpdate] never reaches the handler: the
    rejection of [answerCallbackQuery] is caught by its outer [catch],
    which replies ["Error processing command: ..."]. *)
Theorem ack_failure_skips_handler (u : Update) (cb : CallbackQuery) (m : Message)
    (s : St) (st : option Z) (rest : list Outcome)
    (Hu : message u = None) (Hcb : callback_query u = Some cb)
    (Hm : cb_message cb = Some m) (Hchat : chatId s = Some (msg_chat m))
    (Hn : net s = Fail st :: rest) (Hst : retriable st = false)
    (Hc : connected s = true) :
  let s' := fst (processUpdate u s) in
  invocations (trace s') = invocations (trace s) /\ core s' = core s /\
  exists r, requests (trace s') = requests (trace s) ++
    ("/answerCallbackQuery", BCallback (cb_id cb)) ::
    ("/sendMessage", BText ("Error processing command: " +:+ error_message st)) :: r.
Proof.
  cbv zeta. unfold processUpdate, catch, processUpdate_body, auth_message, auth_callback,
    chatId_str, getS, mbind, M_bind, mret, M_ret.
  rewrite Hu, Hcb, Hm. red_m. rewrite Hchat. red_m. rewrite String.eqb_refl. red_m.
  unfold handle_callback, log, emit, modify, getS, mbind, M_bind, mret, M_ret. red_m.
  set (x := add_event _ s).
  assert (Hnx : net x = map Fail [] ++ Fail st :: rest) by exact Hn.
  destruct (attempt_run [] (Fail st) rest retry O "/answerCallbackQuery"
              (BCallback (cb_id cb)) x ltac:(constructor) (Nat.le_0_l _) (or_introl Hst) Hnx)
    as [s1 [E [N1 [C1 [R1 _]]]]].
  pose proof (keeps_transport "/answerCallbackQuery" (BCallback (cb_id cb)) x) as Q1.
  unfold transport in Q1 |- *. rewrite E in Q1 |- *. cbn [fst] in Q1. red_m.
  assert (Hc1 : connected s1 = true)
    by (destruct (core_eq_fields x s1 C1) as [_ [H _]]; rewrite H; exact Hc).
  unfold processUpdate_failed, log, emit, modify, catch, mbind, M_bind, mret, M_ret. red_m.
  set (y := add_event _ s1).
  assert (Hcy : connected y = true) by exact Hc1.
  set (txt := "Error processing command: " +:+ error_message st).
  destruct (sendMessage_ok txt y) as [b E2]. rewrite E2. red_m.
  pose proof (keeps_sendMessage txt y) as Q2.
  destruct (sendMessage_trace txt y Hcy) as [d T2].
  split; [|split].
  - rewrite (quiet_invocations _ _ Q2). unfold y. rewrite trace_add_event, invocations_app.
    rewrite (quiet_invocations _ _ Q1). unfold x. rewrite trace_add_event, invocations_app.
    cbn. rewrite !app_nil_r. reflexivity.
  - destruct Q2 as [C2 _]. rewrite C2. exact C1.
  - exists (requests d). rewrite T2, requests_app. unfold y. rewrite trace_add_event,
      requests_app, R1. unfold x. rewrite trace_add_event, !requests_app. cbn.
    rewrite !app_nil_r, <- !app_assoc. reflexivity.
Qed.

(** Extra X18: No exception escapes [processUpdate], and its own code (the checks,
    the acknowledgement, the replies, the catch blocks) changes no field
    but the oracle and the trace: not the connection state, the cursor,
    the timer, the polling flag, the listeners or the handlers. *)
Theorem processUpdate_contained (u : Update) (s : St) :
  snd (processUpdate u s) = Ok tt /\ core (fst (processUpdate u s)) = core s.
Proof. split; [apply processUpdate_ok | apply keeps_processUpdate]. Qed.

(** ** Witnesses at concrete inputs *)

Lemma senders_disconnected_witness :
  poll_tick (initial [0%nat] app_handlers []) = (initial [0%nat] app_handlers [], Ok tt).
Proof.
  destruct (senders_disconnected (initial [0%nat] app_handlers []) "hi" None eq_refl)
    as [_ [_ [_ H]]].
  exact H.
Defined.

Lemma getUpdates_no_updates_witness :
  getUpdates (connected_st 4 [Resp (PUpdates [])]) =
    (set_net [] (add_event (ERequest "/getUpdates" (BOffset 5))
                  (connected_st 4 [Resp (PUpdates [])])), Ok []).
Proof.
  exact (getUpdates_no_updates (connected_st 4 [Resp (PUpdates [])]) (PUpdates []) []
           eq_refl eq_refl eq_refl).
Defined.

Lemma getUpdates_cursor_from_last_witness :
  lastUpdateId (fst (getUpdates (connected_st 9 [Resp (PUpdates [upd_storage])]))) = 5.
Proof.
  rewrite (getUpdates_cursor_from_last (connected_st 9 [Resp (PUpdates [upd_storage])])
             [upd_storage] upd_storage [] eq_refl eq_refl eq_refl).
  reflexivity.
Defined.

Lemma testConnection_not_bot_witness :
  testConnection (connected_st 0 [Resp (PBot false)]) =
    (set_net [] (add_event (ERequest "/getMe" BNone) (connected_st 0 [Resp (PBot false)])),
     Ok false).
Proof.
  apply (testConnection_not_bot (connected_st 0 [Resp (PBot false)]) (PBot false) []);
    [reflexivity | discriminate].
Defined.

Lemma testConnection_success_witness :
  reconnectAttempts (fst (testConnection (set_attempts 3 (connected_st 0 [Resp (PBot true)])))) = 0.
Proof.
  rewrite (testConnection_success (set_attempts 3 (connected_st 0 [Resp (PBot true)])) []
             eq_refl).
  reflexivity.
Defined.

Lemma handleDisconnection_exhausted_witness :
  reconnectTimer (fst (handleDisconnection (set_attempts 10 (connected_st 0 [])))) = None.
Proof.
  assert (H : 10 <= reconnectAttempts (set_attempts 10 (connected_st 0 []))) by (cbn; lia).
  destruct (handleDisconnection_exhausted (set_attempts 10 (connected_st 0 [])) 3 H)
    as [_ [_ [T _]]].
  exact T.
Defined.

Lemma reconnect_without_credentials_witness :
  fire_times 3 (set_timer (Some 1000) (initial [0%nat] app_handlers [])) =
    (set_attempts 1 (set_timer None (set_timer (Some 1000) (initial [0%nat] app_handlers []))),
     Ok tt).
Proof.
  exact (reconnect_without_credentials (set_timer (Some 1000) (initial [0%nat] app_handlers []))
           2 1000 eq_refl eq_refl).
Defined.

Lemma setConnected_notifies_once_witness :
  notifications (trace (fst (setConnected true (initial [0%nat; 1%nat; 2%nat] ∅ [])))) =
    [(0%nat, true); (1%nat, true); (2%nat, true)].
Proof.
  assert (H : connected (initial [0%nat; 1%nat; 2%nat] ∅ []) <> true) by discriminate.
  destruct (setConnected_notifies_once _ true H) as [_ [_ N]].
  rewrite N. reflexivity.
Defined.

Lemma addConnectionListener_then_change_witness :
  notifications
    (trace (fst ((addConnectionListener 1 ;; setConnected true) (initial [0%nat] ∅ [])))) =
    [(1%nat, false); (0%nat, true); (1%nat, true)].
Proof.
  assert (H : connected (initial [0%nat] ∅ []) <> true) by discriminate.
  destruct (addConnectionListener_then_change _ 1 true H) as [_ N].
  rewrite N. reflexivity.
Defined.

Lemma registered_handler_runs_witness :
  snd ((registerCommandHandler "storage" (fun _ => Some "replaced") ;;
        handle_callback cb_storage) (connected_st 0 [Resp PNone])) = Exn "replaced".
Proof.
  destruct (registered_handler_runs (connected_st 0 [Resp PNone]) "storage"
              (fun _ => Some "replaced") cb_storage PNone [] eq_refl eq_refl) as [_ H].
  exact H.
Defined.

Lemma unknown_command_reply_witness :
  invocations (trace (fst (handle_message (op_msg (Some "/Foo bar")) (connected_st 0 [])))) = [].
Proof.
  assert (Hnone : commandHandlers (connected_st 0 []) !!
                    toLowerCase (hd "" (js_split " "%char (substring1 "/Foo bar"))) = None)
    by reflexivity.
  destruct (unknown_command_reply (op_msg (Some "/Foo bar")) "/Foo bar" (connected_st 0 [])
              eq_refl eq_refl eq_refl eq_refl Hnone eq_refl) as [I _].
  rewrite I. reflexivity.
Defined.

Lemma callback_unhandled_witness :
  requests (trace (fst (handle_callback (mkCallbackQuery "cq9" "zip_1" (Some (op_msg None)))
                          (connected_st 0 [Resp PNone])))) =
    [("/answerCallbackQuery", BCallback "cq9")].
Proof.
  assert (Hnone : commandHandlers (connected_st 0 [Resp PNone]) !! "zip_1" = None)
    by reflexivity.
  assert (Hpre : includes "_"%char "zip_1" = true ->
                 commandHandlers (connected_st 0 [Resp PNone]) !!
                   hd "" (js_split "_"%char "zip_1") = None)
    by (intros _; reflexivity).
  assert (Hown_pre : includes "_"%char "zip_1" = true ->
                     inherited_key (hd "" (js_split "_"%char "zip_1")) = false)
    by (intros _; reflexivity).
  destruct (callback_unhandled (mkCallbackQuery "cq9" "zip_1" (Some (op_msg None)))
              (connected_st 0 [Resp PNone]) PNone [] eq_refl eq_refl Hnone Hpre eq_refl
              Hown_pre)
    as [_ [_ [r R]]].
  rewrite R. reflexivity.
Defined.

Lemma ack_failure_skips_handler_witness :
  invocations (trace (fst (processUpdate upd_file42 (connected_st 0 [Fail (Some 400)])))) = [] /\
  exists r, requests (trace (fst (processUpdate upd_file42 (connected_st 0 [Fail (Some 400)])))) =
    ("/answerCallbackQuery", BCallback "cq7") ::
    ("/sendMessage", BText "Error processing command: Request failed with status code 400") :: r.
Proof.
  destruct (ack_failure_skips_handler upd_file42 cb_file42 (op_msg None)
              (connected_st 0 [Fail (Some 400)]) (Some 400) []
              eq_refl eq_refl eq_refl eq_refl eq_refl eq_refl eq_refl) as [I [_ [r R]]].
  split; [rewrite I; reflexivity | exists r; rewrite R; reflexivity].
Defined.

Lemma sendDeviceInfo_ignores_delivery_witness :
  snd (sendDeviceInfo (Some (inl "Device Connected")) (connected_st 0 [])) = Ok true.
Proof.
  destruct (sendDeviceInfo_ignores_delivery (connected_st 0 []) "Device Connected" eq_refl)
    as [H _].
  exact H.
Defined.
